(** * SSH-over-WebSocket bridge: stream adapters, session registry,
      forwarding authorization and process monitoring

    A shallow embedding of the hand-written parts of the repository:

    - [WebSocketServerStream]   (server/src/websocket-stream.ts)
    - [connectionClientStream]  (repro-client-ws.ts)
    - the session map handling of [testSSH] and [closeSessions]
      (repro-client-ws.ts)
    - the wait of [testSSH] for the socket to open (repro-client-ws.ts)
    - the [onRequest] handler of [startSshServer] (server/src/index.ts)
    - the session configurations of [testSSH] and [startSshServer]
    - [spawnProcess] (repro-client-ws.ts)

    Both adapters extend [BaseStream] of the session library.  The library
    is not part of the repository: every call an adapter makes into it
    ([onData], [onEnd], [onError], [closedEmitter.fire]) and every call it
    makes on the WebSocket ([send], [close], [drop]) is recorded, in program
    order, in a trace.  The WebSocket packages are not part of the
    repository either: what a socket does when [close(error?)] calls it (it
    returns, it throws, or it emits events before it returns) is a parameter
    of that method, a [reaction].  [BaseStream.dispose] is known by what the
    specification says of it.  Console output is not modelled. *)

From Stdlib Require Import ZArith String List Lia.
From Stdlib.Strings Require Import Byte.
From stdpp Require Import base option list gmap strings.

(** ** Values *)

(** A Node [Buffer]: a sequence of bytes. *)
Definition Buffer : Type := list byte.

(** The [code] property of a JavaScript error object, when it has one:
    a number, or something that is not a number (Node's system errors carry
    strings there). *)
Inductive code_value : Type :=
| CodeNumber (n : Z)
| CodeOther (s : string).

(** An [Error] object handed to the adapter by its caller or by the
    transport. *)
Record js_error : Type := JsError {
  message : string;
  code : option code_value
}.

(** What an adapter hands to the error sink: either the very object it was
    given, or an object it has just built with [new Error(message)] and then
    assigned a [code]. *)
Inductive sink_error : Type :=
| Passed (e : js_error)
| NewError (msg : string) (code : option Z).

(** What an adapter method throws, or lets through when a call it makes on
    the transport throws. *)
Inductive exception : Type :=
| TypeError (msg : string)
| ObjectDisposedError
| OtherError (msg : string).

(** ** Calls into the library and onto the transport *)

Inductive effect : Type :=
| onData (data : Buffer)
| onEnd
| onError (e : sink_error)
| closedEmitter_fire (error : option js_error)
| websocket_send (data : Buffer)
| websocket_close (code : option code_value) (reason : option string)
| websocket_drop (code : option Z) (reason : string).

(** A trace entry: the call, and the value the [disposed] field had when the
    call was made (what a listener invoked by that call reads). *)
Record entry : Type := Entry {
  seen_disposed : bool;
  call : effect
}.

Definition calls (t : list entry) : list effect := map call t.

(** ** The adapter's state and the monad of its methods *)

(** [BaseStream] keeps one field the adapters read and write. *)
Record BaseStream : Type := Stream { disposed : bool }.

Inductive result (A : Type) : Type :=
| Return (a : A)
| Throw (x : exception).
Arguments Return {A} a.
Arguments Throw {A} x.

Definition M (A : Type) : Type :=
  BaseStream -> result A * BaseStream * list entry.

#[global] Instance M_ret : MRet M := fun A a s => (Return a, s, []).

#[global] Instance M_bind : MBind M := fun A B f m s =>
  match m s with
  | (Return a, s1, t1) =>
      match f a s1 with
      | (r, s2, t2) => (r, s2, t1 ++ t2)
      end
  | (Throw x, s1, t1) => (Throw x, s1, t1)
  end.

Definition throw {A : Type} (x : exception) : M A :=
  fun s => (Throw x, s, []).

Definition get_disposed : M bool :=
  fun s => (Return (disposed s), s, []).

Definition set_disposed (b : bool) : M unit :=
  fun s => (Return tt, Stream b, []).

Definition perform (e : effect) : M unit :=
  fun s => (Return tt, s, [Entry (disposed s) e]).

Definition state_of {A : Type} (r : A * BaseStream * list entry) : BaseStream :=
  snd (fst r).

Definition trace_of {A : Type} (r : A * BaseStream * list entry) : list entry :=
  snd r.

Definition value_of {A : Type} (r : A * BaseStream * list entry) : A :=
  fst (fst r).

(** How a method call ends for its caller.  An [async] method never throws:
    an exception in its body rejects the promise it returns.  A plain method
    that returns [Promise.resolve()] throws synchronously. *)
Inductive completion : Type :=
| resolved
| rejected (x : exception)
| thrown (x : exception).

Definition async (m : M unit) : BaseStream -> completion * BaseStream * list entry :=
  fun s =>
    match m s with
    | (Return _, s1, t) => (resolved, s1, t)
    | (Throw x, s1, t) => (rejected x, s1, t)
    end.

Definition returning_promise (m : M unit) :
    BaseStream -> completion * BaseStream * list entry :=
  fun s =>
    match m s with
    | (Return _, s1, t) => (resolved, s1, t)
    | (Throw x, s1, t) => (thrown x, s1, t)
    end.

(** The exception a call failed with, whichever way it was reported. *)
Definition failure (c : completion) : option exception :=
  match c with
  | resolved => None
  | rejected x => Some x
  | thrown x => Some x
  end.

(** ** JavaScript operators on a close code ([number | undefined]) *)

(** [!code]: [undefined] and [0] are falsy.  (A close code is an integer of
    the transport's code space; the falsy number that is not one, [NaN],
    does not occur.) *)
Definition js_not (code : option Z) : bool :=
  match code with
  | None => true
  | Some n => (n =? 0)%Z
  end.

(** [typeof code === "undefined"] *)
Definition is_undefined {A : Type} (v : option A) : bool :=
  match v with
  | None => true
  | Some _ => false
  end.

(** [v ?? d] *)
Definition nullish {A : Type} (v : option A) (d : A) : A :=
  match v with
  | Some a => a
  | None => d
  end.

(** [new Error(reason)] has the empty message when [reason] is [undefined]. *)
Definition error_message (reason : option string) : string :=
  nullish reason EmptyString.

(** ** Transport events and listeners *)

Inductive ws_event (Msg : Type) : Type :=
| ev_message (m : Msg)
| ev_close (code : option Z) (reason : option string)
| ev_error (e : js_error).
Arguments ev_message {Msg} m.
Arguments ev_close {Msg} code reason.
Arguments ev_error {Msg} e.

(** The listeners a constructor registers with [on(name, handler)].  A name
    the constructor does not register stays [None]. *)
Record listeners (Msg : Type) : Type := Listeners {
  message_listener : option (Msg -> M unit);
  close_listener : option (option Z -> option string -> M unit);
  error_listener : option (js_error -> M unit)
}.
Arguments Listeners {Msg} _ _ _.
Arguments message_listener {Msg} _.
Arguments close_listener {Msg} _.
Arguments error_listener {Msg} _.

Definition emit {Msg : Type} (ls : listeners Msg) (ev : ws_event Msg) : M unit :=
  match ev with
  | ev_message m =>
      match message_listener ls with
      | Some h => h m
      | None => mret tt
      end
  | ev_close c r =>
      match close_listener ls with
      | Some h => h c r
      | None => mret tt
      end
  | ev_error e =>
      match error_listener ls with
      | Some h => h e
      | None => mret tt
      end
  end.

Fixpoint emit_all {Msg : Type} (ls : listeners Msg) (evs : list (ws_event Msg)) : M unit :=
  match evs with
  | [] => mret tt
  | ev :: rest => emit ls ev ;; emit_all ls rest
  end.

(** What the transport does when a method calls it: it carries the call out
    and returns; or it throws; or, before it returns, it emits events, which
    reach the listeners the adapter has registered on it. *)
Inductive reaction (Msg : Type) : Type :=
| quiet
| throwing (x : exception)
| emitting (evs : list (ws_event Msg)).
Arguments quiet {Msg}.
Arguments throwing {Msg} x.
Arguments emitting {Msg} evs.

(** A call on the transport, with the transport's reaction to it.  An
    exception goes up through the method, which has no [try]. *)
Definition transport_call {Msg : Type} (ls : listeners Msg) (r : reaction Msg)
    (e : effect) : M unit :=
  perform e ;;
  match r with
  | quiet => mret tt
  | throwing x => throw x
  | emitting evs => emit_all ls evs
  end.

(** Modelled from the spec: [BaseStream.dispose] belongs to the session
    library, which is not part of this repository.  The spec's data model
    says of disposal that it "marks disposed" and is "a no-op if already
    disposed". *)
Definition super_dispose : M unit :=
  get_disposed ≫= fun d : bool =>
  if d then mret tt else set_disposed true.

(** ** server/src/websocket-stream.ts *)

Module WebSocketServerStream.

(** A message of the [websocket] package: tagged by [type]. *)
Inductive Message : Type :=
| utf8 (utf8Data : string)
| binary (binaryData : Buffer).

(** [Buffer.from(data.binaryData)] is a new buffer with the same bytes. *)
Definition on_message (data : Message) : M unit :=
  match data with
  | binary binaryData => perform (onData binaryData)
  | utf8 _ => mret tt
  end.

Definition on_close (code : option Z) (reason : option string) : M unit :=
  if is_undefined code || js_not code
  then perform onEnd
  else perform (onError (NewError (error_message reason) code)).

Definition on_error (error : js_error) : M unit :=
  perform (onError (Passed error)).

(** The constructor, given the connection it requires, registers three
    listeners. *)
Definition constructor : listeners Message :=
  Listeners (Some on_message) (Some on_close) (Some on_error).

Definition write_body (data : option Buffer) : M unit :=
  match data with
  | None => throw (TypeError "Data is required.")
  | Some d =>
      get_disposed ≫= fun dis : bool =>
      if dis then throw ObjectDisposedError
      else perform (websocket_send d)
  end.

Definition write (data : option Buffer) := async (write_body data).

(** [close(error?)], for the reaction [r] of the connection to the call the
    method makes on it.  (The [websocket] package's [drop] emits ["close"]
    before it returns, to the listener the constructor has registered.) *)
Definition close_body_with (r : reaction Message) (error : option js_error) : M unit :=
  get_disposed ≫= fun dis : bool =>
  if dis then throw ObjectDisposedError
  else
    match error with
    | None => transport_call constructor r (websocket_close None None)
    | Some err =>
        let code :=
          match code err with
          | Some (CodeNumber n) => Some n
          | _ => None
          end in
        transport_call constructor r (websocket_drop code (message err))
    end ;;
    set_disposed true ;;
    perform (closedEmitter_fire error) ;;
    perform (onError (match error with
                      | Some err => Passed err
                      | None => NewError "Stream closed." None
                      end)).

Definition close_with (r : reaction Message) (error : option js_error) :=
  async (close_body_with r error).

(** [close(error?)] on a connection that carries the call out and returns
    without emitting anything. *)
Definition close_body (error : option js_error) : M unit :=
  close_body_with quiet error.

Definition close (error : option js_error) := close_with quiet error.

Definition dispose : M unit :=
  get_disposed ≫= fun dis : bool =>
  (if negb dis then perform (websocket_close None None) else mret tt) ;;
  super_dispose.

End WebSocketServerStream.

(** ** repro-client-ws.ts: the client's adapter *)

Module connectionClientStream.

(** [WebSocket.RawData] as the [ws] package delivers it to a socket whose
    [binaryType] is left at its default or set to ["arraybuffer"]: a
    [Buffer] or an [ArrayBuffer].  (The third alternative of the type, an
    array of fragments, needs [binaryType = "fragments"], which the client
    never sets.) *)
Inductive RawData : Type :=
| raw_Buffer (b : Buffer)
| raw_ArrayBuffer (b : Buffer).

(** The arguments of a ["message"] event of [ws]. *)
Record Message : Type := Msg {
  data : RawData;
  isBinary : bool
}.

(** [Buffer.isBuffer(data) ? data : Buffer.from(data as ArrayBuffer)] *)
Definition to_buffer (d : RawData) : Buffer :=
  match d with
  | raw_Buffer b => b
  | raw_ArrayBuffer b => b
  end.

Definition on_message (m : Message) : M unit :=
  if isBinary m
  then
    let buffer := to_buffer (data m) in
    perform (onData buffer)
  else mret tt.

Definition on_close (code : option Z) (reason : option string) : M unit :=
  if js_not code
  then perform onEnd
  else perform (onError (NewError (error_message reason)
                                  (Some (nullish code 1011%Z)))).

(** The constructor registers a ["message"] and a ["close"] listener and
    nothing else.  The one ["error"] listener on the socket is [testSSH]'s,
    added before the socket opened: it logs, and rejects the promise that
    the ["open"] listener has settled by the time the adapter exists; it
    never reaches the adapter. *)
Definition constructor : listeners Message :=
  Listeners (Some on_message) (Some on_close) None.

Definition write_body (data : option Buffer) : M unit :=
  get_disposed ≫= fun dis : bool =>
  if dis then throw ObjectDisposedError
  else
    match data with
    | None => throw (TypeError "Data is required.")
    | Some d => perform (websocket_send d)
    end.

Definition write (data : option Buffer) := returning_promise (write_body data).

(** [close(error?)], for the reaction [r] of the socket to the call the
    method makes on it.  (The [ws] package's [close] throws when it is given
    a code that is not a number or not one a close frame may carry, and
    [error.code] is passed on unchecked.) *)
Definition close_body_with (r : reaction Message) (error : option js_error) : M unit :=
  get_disposed ≫= fun dis : bool =>
  if dis then throw ObjectDisposedError
  else
    match error with
    | None => transport_call constructor r (websocket_close (Some (CodeNumber 1000)) None)
    | Some err =>
        transport_call constructor r
          (websocket_close (Some (nullish (code err) (CodeNumber 1011)))
                           (Some (message err)))
    end ;;
    set_disposed true ;;
    perform (closedEmitter_fire error) ;;
    perform (onError (match error with
                      | Some err => Passed err
                      | None => NewError "Stream closed." None
                      end)).

Definition close_with (r : reaction Message) (error : option js_error) :=
  returning_promise (close_body_with r error).

(** [close(error?)] on a socket that carries the call out and returns
    without emitting anything. *)
Definition close_body (error : option js_error) : M unit :=
  close_body_with quiet error.

Definition close (error : option js_error) := close_with quiet error.

Definition dispose : M unit :=
  get_disposed ≫= fun dis : bool =>
  (if negb dis then perform (websocket_close None None) else mret tt) ;;
  super_dispose.

End connectionClientStream.

(** ** The two adapters behind one interface *)

(** What the session layer and the transport can do with an adapter. *)
Class StreamAdapter (Msg : Type) : Type := {
  adapter_listeners : listeners Msg;
  adapter_write : option Buffer -> BaseStream -> completion * BaseStream * list entry;
  adapter_close_with :
    reaction Msg -> option js_error -> BaseStream -> completion * BaseStream * list entry;
  adapter_dispose : M unit
}.

(** [close(error?)] on a transport that carries the call out and returns. *)
Definition adapter_close {Msg : Type} `{StreamAdapter Msg} (error : option js_error) :
    BaseStream -> completion * BaseStream * list entry :=
  adapter_close_with quiet error.

#[global] Instance server_adapter : StreamAdapter WebSocketServerStream.Message := {
  adapter_listeners := WebSocketServerStream.constructor;
  adapter_write := WebSocketServerStream.write;
  adapter_close_with := WebSocketServerStream.close_with;
  adapter_dispose := WebSocketServerStream.dispose
}.

#[global] Instance client_adapter : StreamAdapter connectionClientStream.Message := {
  adapter_listeners := connectionClientStream.constructor;
  adapter_write := connectionClientStream.write;
  adapter_close_with := connectionClientStream.close_with;
  adapter_dispose := connectionClientStream.dispose
}.

(** One thing that happens to an adapter: a method call by the session
    layer, or an event of the transport. *)
Inductive operation (Msg : Type) : Type :=
| op_write (data : option Buffer)
| op_close (error : option js_error)
| op_dispose
| op_event (ev : ws_event Msg).
Arguments op_write {Msg} data.
Arguments op_close {Msg} error.
Arguments op_dispose {Msg}.
Arguments op_event {Msg} ev.

(** The state after an operation and the calls it made.  A method that
    fails gives its caller an exception; the adapter lives on.  A [close]
    here meets a transport that carries its call out and returns;
    [step_on], below, has the other cases. *)
Definition step {Msg : Type} `{StreamAdapter Msg} (o : operation Msg) (s : BaseStream) :
    BaseStream * list entry :=
  match o with
  | op_write d => let r := adapter_write d s in (state_of r, trace_of r)
  | op_close e => let r := adapter_close e s in (state_of r, trace_of r)
  | op_dispose => let r := adapter_dispose s in (state_of r, trace_of r)
  | op_event ev => let r := emit adapter_listeners ev s in (state_of r, trace_of r)
  end.

Fixpoint run {Msg : Type} `{StreamAdapter Msg} (os : list (operation Msg)) (s : BaseStream) :
    BaseStream * list entry :=
  match os with
  | [] => (s, [])
  | o :: rest =>
      let '(s1, t1) := step o s in
      let '(s2, t2) := run rest s1 in
      (s2, t1 ++ t2)
  end.

(** One thing that happens to an adapter when the transport may refuse a
    [close] or answer it with events: as [operation], a [close] coming with
    the transport's reaction to the call it makes. *)
Inductive reacting_operation (Msg : Type) : Type :=
| do_write (data : option Buffer)
| do_close (r : reaction Msg) (error : option js_error)
| do_dispose
| do_event (ev : ws_event Msg).
Arguments do_write {Msg} data.
Arguments do_close {Msg} r error.
Arguments do_dispose {Msg}.
Arguments do_event {Msg} ev.

Definition step_on {Msg : Type} `{StreamAdapter Msg} (o : reacting_operation Msg)
    (s : BaseStream) : BaseStream * list entry :=
  match o with
  | do_write d => let r := adapter_write d s in (state_of r, trace_of r)
  | do_close r e => let c := adapter_close_with r e s in (state_of c, trace_of c)
  | do_dispose => let r := adapter_dispose s in (state_of r, trace_of r)
  | do_event ev => let r := emit adapter_listeners ev s in (state_of r, trace_of r)
  end.

Fixpoint run_on {Msg : Type} `{StreamAdapter Msg} (os : list (reacting_operation Msg))
    (s : BaseStream) : BaseStream * list entry :=
  match os with
  | [] => (s, [])
  | o :: rest =>
      let '(s1, t1) := step_on o s in
      let '(s2, t2) := run_on rest s1 in
      (s2, t1 ++ t2)
  end.

(** Calls that close the transport: [close] and [drop]. *)
Definition closes_transport (e : effect) : bool :=
  match e with
  | websocket_close _ _ => true
  | websocket_drop _ _ => true
  | _ => false
  end.

Definition transport_closes (t : list entry) : nat :=
  length (List.filter closes_transport (calls t)).

(** ** repro-client-ws.ts: the session map *)

(** An [SshClientSession] object, known by its identity. *)
Definition SshClientSession : Type := nat.

Inductive SshDisconnectReason : Type :=
| byApplication.

(** What the session map code does: calls on a session, and updates of the
    map. *)
Inductive registry_call : Type :=
| session_close (session : SshClientSession) (reason : SshDisconnectReason)
| Map_set (key : string) (session : SshClientSession)
| Map_delete (key : string).

(** A call together with the map as it was when the call was made. *)
Record registry_entry : Type := RegistryEntry {
  map_then : gmap string SshClientSession;
  registry_call_of : registry_call
}.

(** The part of [testSSH] that handles the session map, for the map that the
    name [sessionMap] stands for inside the function:

    - the session found under [serverURI], if any, is closed and the close
      awaited ([.finally(() => res(true))], then [await isContinue]);
    - the new session is connected, authenticated and asked to forward the
      port; [established] says whether all of that went through (a failure
      is caught at the end of the function, which then returns);
    - [sessionMap.set(serverURI, session)]. *)
Definition testSSH_sessions (sessionMap : gmap string SshClientSession)
    (serverURI : string) (session : SshClientSession) (established : bool) :
    gmap string SshClientSession * list registry_entry :=
  let closing :=
    match sessionMap !! serverURI with
    | Some prior => [RegistryEntry sessionMap (session_close prior byApplication)]
    | None => []
    end in
  if established
  then (<[serverURI := session]> sessionMap,
        closing ++ [RegistryEntry sessionMap (Map_set serverURI session)])
  else (sessionMap, closing).

(** [testSSH] itself: [sessionMap] is a [new Map()] made by the function,
    which hides the module's map of the same name. *)
Definition testSSH (session : SshClientSession) (established : bool) :
    gmap string SshClientSession * list registry_entry :=
  testSSH_sessions ∅ "ws://localhost:8080" session established.

(** ** server/src/index.ts: authorizing requests *)

Section Authorization.

(** The principal of a session: an object the server never looks into. *)
Context {Principal : Type}.

Inductive SessionRequestMessage : Type :=
| PortForwardRequestMessage (host : string) (port : Z)
| OtherRequestMessage (requestType : string).

Record SshRequestEventArgs : Type := RequestEventArgs {
  request : SessionRequestMessage;
  principal : option Principal;
  isAuthorized : bool
}.

(** [!!e.principal]: an object is truthy, [null] is not. *)
Definition truthy (p : option Principal) : bool :=
  match p with
  | Some _ => true
  | None => false
  end.

(** The handler given to [session.onRequest]: the event arguments as it
    leaves them. *)
Definition onRequest (e : SshRequestEventArgs) : SshRequestEventArgs :=
  match request e with
  | PortForwardRequestMessage _ _ =>
      RequestEventArgs (request e) (principal e) (truthy (principal e))
  | OtherRequestMessage _ => e
  end.

End Authorization.

Arguments SshRequestEventArgs Principal : clear implicits.

(** ** repro-client-ws.ts: [spawnProcess] *)

(** How an invocation of a callback ends. *)
Inductive outcome : Type :=
| returns
| throws.

(** One invocation of [options.onExit]. *)
Record exit_call : Type := ExitCall {
  exitCode : option Z;
  signalCode : option string
}.

(** A callback, by what an invocation of it does. *)
Definition exit_callback : Type := option Z -> option string -> outcome.

(** [options.onExit?.(exitCode, signalCode)] *)
Definition call_onExit (onExit : option exit_callback)
    (exitCode : option Z) (signalCode : option string) : outcome * list exit_call :=
  match onExit with
  | Some f => (f exitCode signalCode, [ExitCall exitCode signalCode])
  | None => (returns, [])
  end.

(** A settled promise. *)
Inductive settled : Type :=
| fulfilled
| rejected_promise.

(** [p.then(f)]: [f] runs when [p] is fulfilled, and the new promise is
    rejected when [f] throws; a rejected [p] rejects the new promise and [f]
    does not run. *)
Definition promise_then {E : Type} (p : settled * list E)
    (f : unit -> outcome * list E) : settled * list E :=
  match p with
  | (fulfilled, t) =>
      match f tt with
      | (returns, t') => (fulfilled, t ++ t')
      | (throws, t') => (rejected_promise, t ++ t')
      end
  | (rejected_promise, t) => (rejected_promise, t)
  end.

(** [p.catch(f)]: [f] runs when [p] is rejected. *)
Definition promise_catch {E : Type} (p : settled * list E)
    (f : unit -> outcome * list E) : settled * list E :=
  match p with
  | (fulfilled, t) => (fulfilled, t)
  | (rejected_promise, t) =>
      match f tt with
      | (returns, t') => (fulfilled, t ++ t')
      | (throws, t') => (rejected_promise, t ++ t')
      end
  end.

Module Bun.

(** A [Bun.Subprocess] that has ended: how its [exited] promise settled,
    and its [exitCode] and [signalCode]. *)
Record Subprocess : Type := {
  exited : settled;
  sub_exitCode : option Z;
  sub_signalCode : option string
}.

(** [sshBunCommand.exited.then(() => onExit?.(..)).catch(() => onExit?.(..))]:
    the invocations of [onExit].  ([signalCode ?? null] is [signalCode],
    [null] and [undefined] being one [None].) *)
Definition monitor (onExit : option exit_callback) (p : Subprocess) : list exit_call :=
  snd (promise_catch
         (promise_then (exited p, [])
            (fun _ => call_onExit onExit (sub_exitCode p) (sub_signalCode p)))
         (fun _ => call_onExit onExit (sub_exitCode p) (sub_signalCode p))).

End Bun.

Module Node.

(** Events of a [ChildProcess]. *)
Inductive child_event : Type :=
| exit (code : option Z) (signal : option string)
| error (e : js_error).

(** [sshProcess.on("exit", (code, signal) => onExit?.(code, signal))]: the
    only listener [spawnProcess] adds. *)
Definition on_event (onExit : option exit_callback) (ev : child_event) : list exit_call :=
  match ev with
  | exit code signal => snd (call_onExit onExit code signal)
  | error _ => []
  end.

Definition monitor (onExit : option exit_callback) (evs : list child_event) : list exit_call :=
  concat (map (on_event onExit) evs).

End Node.

(** The [onExit] callback [testSSH] gives to [spawnProcess], by how an
    invocation of it ends: it logs, starts the session's asynchronous
    [close] and catches its rejection, deletes a key of a [Map] and calls
    [closeSessions()]; none of these throws, and it returns. *)
Definition testSSH_exit_callback : exit_callback := fun _ _ => returns.

(** The end of a spawned process, as its runtime reports it. *)
Inductive termination : Type :=
| bun_ended (p : Bun.Subprocess)
| node_ended (evs : list Node.child_event).

(** [runtime.startsWith("Bun")] *)
Definition is_Bun (runtime : string) : bool := String.prefix "Bun" runtime.

(** The invocations of [options.onExit] that [spawnProcess] causes for one
    process, under the runtime named by [navigator.userAgent]. *)
Definition spawnProcess (runtime : string) (onExit : option exit_callback)
    (t : termination) : option (list exit_call) :=
  match is_Bun runtime, t with
  | true, bun_ended p => Some (Bun.monitor onExit p)
  | false, node_ended evs => Some (Node.monitor onExit evs)
  | _, _ => None
  end.

(** ** repro-client-ws.ts: the module's session map and [closeSessions] *)

(** A JavaScript [Map] from strings to sessions, as the list of its entries
    in insertion order: [closeSessions] walks it in that order. *)
Definition JsMap : Type := list (string * SshClientSession).

(** [m.delete(key)] *)
Definition JsMap_delete (key : string) (m : JsMap) : JsMap :=
  List.filter (fun kv => negb (String.eqb (fst kv) key)) m.

(** [sessions.includes(key)] *)
Definition includes (sessions : list string) (key : string) : bool :=
  existsb (String.eqb key) sessions.

(** [sessions && !sessions.includes(key)]: an array, even an empty one, is
    truthy. *)
Definition passed_over (sessions : option (list string)) (key : string) : bool :=
  match sessions with
  | Some l => negb (includes l key)
  | None => false
  end.

(** The callback [closeSessions] gives to [forEach]: the map and the calls
    made so far, after one more entry. *)
Definition closeSessions_entry (sessions : option (list string))
    (acc : JsMap * list registry_call) (kv : string * SshClientSession) :
    JsMap * list registry_call :=
  if passed_over sessions (fst kv)
  then acc
  else (JsMap_delete (fst kv) (fst acc),
        snd acc ++ [session_close (snd kv) byApplication; Map_delete (fst kv)]).

(** [closeSessions(sessions?)]: [Array.from(sessionMap.entries())] is taken
    once, before the walk, and the callback deletes from the map itself. *)
Definition closeSessions (sessions : option (list string)) (sessionMap : JsMap) :
    JsMap * list registry_call :=
  fold_left (closeSessions_entry sessions) sessionMap (sessionMap, []).

(** The [onExit] callback [testSSH] gives to [spawnProcess]: it closes the
    session, deletes the key from the map of [testSSH] and calls
    [closeSessions()], which works on the module's map.  The result is the
    two maps and the calls. *)
Definition testSSH_onExit (session : SshClientSession) (serverURI : string)
    (sessionMap : gmap string SshClientSession) (moduleMap : JsMap) :
    gmap string SshClientSession * JsMap * list registry_call :=
  (delete serverURI sessionMap,
   fst (closeSessions None moduleMap),
   [session_close session byApplication; Map_delete serverURI]
     ++ snd (closeSessions None moduleMap)).

(** ** repro-client-ws.ts: waiting for the socket to open *)

(** What can happen to the socket while [testSSH] waits for its stream: it
    opens, it reports an error (whose event may lack a message), or the ten
    seconds are over, the socket then being in some [readyState]. *)
Inductive connect_event : Type :=
| socket_open
| socket_error (msg : option string)
| timer_fired (readyState : Z).

(** The promise [testSSH] awaits. *)
Inductive connecting : Type :=
| waiting
| got_stream
| failed (msg : string).

(** [(event as ErrorEvent).message || "Unknown error"]: the empty string is
    falsy as well. *)
Definition errorMessage (msg : option string) : string :=
  match msg with
  | Some m => if String.eqb m "" then "Unknown error" else m
  | None => "Unknown error"
  end.

(** [!websocket.readyState || websocket.readyState !== 1] *)
Definition not_open (readyState : Z) : bool :=
  (readyState =? 0)%Z || negb (readyState =? 1)%Z.

(** One event: [resolve] and [reject] do nothing to a settled promise. *)
Definition connecting_step (serverURI : string) (p : connecting)
    (ev : connect_event) : connecting :=
  match p with
  | waiting =>
      match ev with
      | socket_open => got_stream
      | socket_error msg =>
          failed ("Failed to connect to server at " ++ serverURI ++ ": "
                  ++ errorMessage msg)%string
      | timer_fired readyState =>
          if not_open readyState
          then failed ("Connection timeout to " ++ serverURI)%string
          else waiting
      end
  | settled => settled
  end.

Definition connect (serverURI : string) (evs : list connect_event) : connecting :=
  fold_left (connecting_step serverURI) evs waiting.

(** ** The session configurations *)

(** The algorithms and extensions the two programs name, and whatever else
    the library's default configuration lists. *)
Inductive algorithm : Type :=
| ecdhNistp256Sha256
| ecdhNistp521Sha512
| ecdsaSha2Nistp521
| rsa2048
| aes256Gcm
| sessionReconnect
| sessionLatency
| library_default (name : string).

(** The lists of an [SshSessionConfiguration] the programs change. *)
Record SshSessionConfiguration : Type := Configuration {
  keyExchangeAlgorithms : list algorithm;
  publicKeyAlgorithms : list algorithm;
  encryptionAlgorithms : list algorithm;
  protocolExtensions : list algorithm
}.

(** [a.push(x)] *)
Definition push {A : Type} (x : A) (a : list A) : list A := a ++ [x].

(** [a.splice(start, deleteCount, ...items)], for [start] within the array:
    the array afterwards. *)
Definition splice {A : Type} (start deleteCount : nat) (items : list A)
    (a : list A) : list A :=
  firstn start a ++ items ++ skipn (start + deleteCount) a.

(** The configuration [testSSH] builds from a [new SshSessionConfiguration()]. *)
Definition client_configuration (c : SshSessionConfiguration) : SshSessionConfiguration :=
  let kex := splice 0 (length (keyExchangeAlgorithms c)) [] (keyExchangeAlgorithms c) in
  let pk := splice 0 (length (publicKeyAlgorithms c)) [] (publicKeyAlgorithms c) in
  Configuration
    (push ecdhNistp521Sha512 (push ecdhNistp256Sha256 kex))
    (push rsa2048 (push ecdsaSha2Nistp521 pk))
    (push aes256Gcm (encryptionAlgorithms c))
    (push sessionLatency (push sessionReconnect (protocolExtensions c))).

(** The configuration [startSshServer] builds from a
    [new SshSessionConfiguration()]. *)
Definition server_configuration (c : SshSessionConfiguration) : SshSessionConfiguration :=
  Configuration
    (push ecdhNistp521Sha512 (keyExchangeAlgorithms c))
    (push rsa2048 (push ecdsaSha2Nistp521 (publicKeyAlgorithms c)))
    (splice 0 0 [aes256Gcm] (encryptionAlgorithms c))
    (push sessionLatency (push sessionReconnect (protocolExtensions c))).

(** ** Vocabulary of the properties of [closeSessions] *)

(** The calls [closeSessions] makes for the entries it does not pass over:
    for each, in the order of the entries, the close of the session and then
    the deletion of the key. *)
Definition closing_calls (sessions : option (list string)) (entries : JsMap) :
    list registry_call :=
  flat_map (fun kv =>
              if passed_over sessions (fst kv)
              then []
              else [session_close (snd kv) byApplication; Map_delete (fst kv)])
           entries.

(** [key] is the key of an entry of [entries] that is not passed over. *)
Definition taken (sessions : option (list string)) (entries : JsMap) (key : string) : bool :=
  existsb (fun kv => negb (passed_over sessions (fst kv)) && String.eqb key (fst kv))
          entries.

(** A failure message [testSSH] can give for the wait: the timeout, or a
    socket error with a cause that is not empty. *)
Definition reported_failure (serverURI msg : string) : Prop :=
  msg = ("Connection timeout to " ++ serverURI)%string
  \/ exists cause : string,
       cause <> ""%string
       /\ msg = ("Failed to connect to server at " ++ serverURI ++ ": " ++ cause)%string.

(** A timer that finds the socket open. *)
Definition finds_open (ev : connect_event) : bool :=
  match ev with
  | timer_fired readyState => negb (not_open readyState)
  | _ => false
  end.

(** An ["error"] event of a child process. *)
Definition is_error_event (ev : Node.child_event) : bool :=
  match ev with
  | Node.error _ => true
  | Node.exit _ _ => false
  end.

(** ** Vocabulary of the properties of whole runs *)

(** The transport refuses the call: it throws. *)
Definition refuses {Msg : Type} (r : reaction Msg) : bool :=
  match r with
  | throwing _ => true
  | _ => false
  end.

(** The writes of a sequence of operations that carry bytes and come before
    its first [dispose] or its first [close] that the transport does not
    refuse, for an adapter that is [live] at the start. *)
Fixpoint writes_before_end {Msg : Type} (live : bool)
    (os : list (reacting_operation Msg)) : list Buffer :=
  match os with
  | [] => []
  | do_write (Some d) :: rest =>
      if live then d :: writes_before_end live rest else writes_before_end live rest
  | do_write None :: rest => writes_before_end live rest
  | do_close r _ :: rest => writes_before_end (live && refuses r) rest
  | do_dispose :: rest => writes_before_end false rest
  | do_event _ :: rest => writes_before_end live rest
  end.

(** A [close] that the transport does not refuse. *)
Definition accepted_close {Msg : Type} (o : reacting_operation Msg) : bool :=
  match o with
  | do_close r _ => negb (refuses r)
  | _ => false
  end.

Definition is_dispose {Msg : Type} (o : reacting_operation Msg) : bool :=
  match o with
  | do_dispose => true
  | _ => false
  end.


(** The buffers given to the transport's [send], in order. *)
Definition sent (t : list entry) : list Buffer :=
  omap (fun e => match e with websocket_send d => Some d | _ => None end) (calls t).

(** The buffers given to the data sink, in order. *)
Definition received (t : list entry) : list Buffer :=
  omap (fun e => match e with onData d => Some d | _ => None end) (calls t).

(** The number of "closed" notifications. *)
Definition closed_notifications (t : list entry) : nat :=
  length (List.filter
            (fun e => match e with closedEmitter_fire _ => true | _ => false end)
            (calls t)).

(** A call on the transport. *)
Definition on_transport (e : effect) : bool :=
  match e with
  | websocket_send _ | websocket_close _ _ | websocket_drop _ _ => true
  | _ => false
  end.

(** The writes of a sequence of operations that carry bytes and come before
    its first [close] or [dispose], for an adapter that is [live] at the
    start. *)
Fixpoint writes_while_live {Msg : Type} (live : bool) (os : list (operation Msg)) :
    list Buffer :=
  match os with
  | [] => []
  | op_write (Some d) :: rest =>
      if live then d :: writes_while_live live rest else writes_while_live live rest
  | op_write None :: rest => writes_while_live live rest
  | op_close _ :: rest => writes_while_live false rest
  | op_dispose :: rest => writes_while_live false rest
  | op_event _ :: rest => writes_while_live live rest
  end.

(** The binary messages among the transport events of a sequence of
    operations. *)
Definition messages_of {Msg : Type} (payload : Msg -> option Buffer)
    (os : list (operation Msg)) : list Buffer :=
  omap (fun o => match o with
                 | op_event (ev_message m) => payload m
                 | _ => None
                 end) os.

(** A call of [close] or [dispose]. *)
Definition ends_stream {Msg : Type} (o : operation Msg) : bool :=
  match o with
  | op_close _ | op_dispose => true
  | _ => false
  end.

(** ** Vocabulary of the properties *)

(** The bytes a message carries, when it is a binary one. *)
Definition server_payload (m : WebSocketServerStream.Message) : option Buffer :=
  match m with
  | WebSocketServerStream.binary b => Some b
  | WebSocketServerStream.utf8 _ => None
  end.

Definition raw_bytes (d : connectionClientStream.RawData) : Buffer :=
  match d with
  | connectionClientStream.raw_Buffer b => b
  | connectionClientStream.raw_ArrayBuffer b => b
  end.

Definition client_payload (m : connectionClientStream.Message) : option Buffer :=
  if connectionClientStream.isBinary m
  then Some (raw_bytes (connectionClientStream.data m))
  else None.

(** The data sink called once with each buffer of [bs], in that order, while
    [disposed] has the value [d]. *)
Definition deliveries (d : bool) (bs : list Buffer) : list entry :=
  map (fun b => Entry d (onData b)) bs.

(** The error of the terminal notification of [close(error?)]: the given
    one, or a new generic one. *)
Definition terminal_error (error : option js_error) : sink_error :=
  match error with
  | Some e => Passed e
  | None => NewError "Stream closed." None
  end.

(** The contract of [write] in the words of the specification: disposed,
    [ObjectDisposedError]; bytes empty or absent, an invalid-argument error;
    otherwise one outbound message and a resolved promise. *)
Definition write_as_specified
    (write : option Buffer -> BaseStream -> completion * BaseStream * list entry) : Prop :=
  forall (data : option Buffer) (s : BaseStream),
    (disposed s = true ->
       failure (value_of (write data s)) = Some ObjectDisposedError)
    /\ (disposed s = false -> data = None \/ data = Some [] ->
       exists msg, failure (value_of (write data s)) = Some (TypeError msg))
    /\ (forall d, disposed s = false -> data = Some d -> d <> [] ->
       value_of (write data s) = resolved
       /\ calls (trace_of (write data s)) = [websocket_send d]).

(** ** Running the monad *)

Ltac run_monad :=
  cbv [mbind M_bind mret M_ret throw get_disposed set_disposed perform
       async returning_promise super_dispose emit transport_call
       adapter_listeners adapter_write adapter_close adapter_close_with
       adapter_dispose
       server_adapter client_adapter
       WebSocketServerStream.constructor WebSocketServerStream.on_message
       WebSocketServerStream.on_close WebSocketServerStream.on_error
       WebSocketServerStream.write WebSocketServerStream.write_body
       WebSocketServerStream.close WebSocketServerStream.close_body
       WebSocketServerStream.close_with WebSocketServerStream.close_body_with
       WebSocketServerStream.dispose
       connectionClientStream.constructor connectionClientStream.on_message
       connectionClientStream.on_close
       connectionClientStream.write connectionClientStream.write_body
       connectionClientStream.close connectionClientStream.close_body
       connectionClientStream.close_with connectionClientStream.close_body_with
       connectionClientStream.dispose
       message_listener close_listener error_listener
       state_of trace_of value_of calls];
  simpl.

Ltac by_cases_on_stream s :=
  destruct s as [[|]]; run_monad.

Lemma emit_all_cons {Msg : Type} (ls : listeners Msg) (ev : ws_event Msg)
    (evs : list (ws_event Msg)) (s s1 : BaseStream) (t1 : list entry) :
  emit ls ev s = (Return tt, s1, t1) ->
  emit_all ls (ev :: evs) s =
    (value_of (emit_all ls evs s1), state_of (emit_all ls evs s1),
     t1 ++ trace_of (emit_all ls evs s1)).
Proof.
  intros H. cbn [emit_all]. unfold mbind, M_bind. rewrite H.
  destruct (emit_all ls evs s1) as [[r s2] t2]. reflexivity.
Qed.

Lemma server_message_delivery (m : WebSocketServerStream.Message) (s : BaseStream) :
  emit WebSocketServerStream.constructor (ev_message m) s =
    (Return tt, s, deliveries (disposed s) (omap server_payload [m])).
Proof. destruct m; reflexivity. Qed.

Lemma client_message_delivery (m : connectionClientStream.Message) (s : BaseStream) :
  emit connectionClientStream.constructor (ev_message m) s =
    (Return tt, s, deliveries (disposed s) (omap client_payload [m])).
Proof. destruct m as [[b|b] [|]]; reflexivity. Qed.

Lemma deliveries_app (d : bool) (xs ys : list Buffer) :
  deliveries d (xs ++ ys) = deliveries d xs ++ deliveries d ys.
Proof. unfold deliveries. apply map_app. Qed.

Lemma omap_cons_singleton {A B : Type} (f : A -> option B) (x : A) (l : list A) :
  omap f (x :: l) = omap f [x] ++ omap f l.
Proof. cbn. destruct (f x); reflexivity. Qed.

(** ** Incoming messages *)

(** C1: whatever messages arrive, in whatever state, the adapter calls the
    data sink once for each binary message, in arrival order, with the bytes
    of that message, and makes no other call; a message that is not binary
    causes no call. *)
Theorem C1_binary_messages_delivered_in_order :
  (forall (ms : list WebSocketServerStream.Message) (s : BaseStream),
      emit_all WebSocketServerStream.constructor (map ev_message ms) s =
        (Return tt, s, deliveries (disposed s) (omap server_payload ms)))
  /\
  (forall (ms : list connectionClientStream.Message) (s : BaseStream),
      emit_all connectionClientStream.constructor (map ev_message ms) s =
        (Return tt, s, deliveries (disposed s) (omap client_payload ms))).
Proof.
  split.
  - induction ms as [|m ms IH]; intros s; [reflexivity|].
    cbn [map]. rewrite (emit_all_cons _ _ _ _ _ _ (server_message_delivery m s)).
    rewrite IH. unfold value_of, state_of, trace_of. cbn [fst snd].
    rewrite (omap_cons_singleton _ m ms), deliveries_app. reflexivity.
  - induction ms as [|m ms IH]; intros s; [reflexivity|].
    cbn [map]. rewrite (emit_all_cons _ _ _ _ _ _ (client_message_delivery m s)).
    rewrite IH. unfold value_of, state_of, trace_of. cbn [fst snd].
    rewrite (omap_cons_singleton _ m ms), deliveries_app. reflexivity.
Qed.

(** ** Incoming close *)

(** C2: a close event whose code is absent or zero makes the adapter signal
    end-of-stream and nothing else; a close event whose code is a number
    other than zero makes it signal one error, newly built, whose [code]
    field is that number. *)
Theorem C2_close_code_decides_end_or_error
    (code : option Z) (reason : option string) (s : BaseStream) :
  (code = None \/ code = Some 0%Z ->
     calls (trace_of (emit WebSocketServerStream.constructor (ev_close code reason) s))
       = [onEnd]
     /\ calls (trace_of (emit connectionClientStream.constructor (ev_close code reason) s))
       = [onEnd])
  /\
  (forall n : Z, code = Some n -> n <> 0%Z ->
     calls (trace_of (emit WebSocketServerStream.constructor (ev_close code reason) s))
       = [onError (NewError (error_message reason) (Some n))]
     /\ calls (trace_of (emit connectionClientStream.constructor (ev_close code reason) s))
       = [onError (NewError (error_message reason) (Some n))]).
Proof.
  split.
  - intros [-> | ->]; split; reflexivity.
  - intros n -> Hn. apply Z.eqb_neq in Hn.
    run_monad. unfold WebSocketServerStream.on_close, connectionClientStream.on_close.
    cbn. rewrite Hn. split; reflexivity.
Qed.

Lemma C2_close_code_witness :
  (calls (trace_of (emit WebSocketServerStream.constructor
                      (ev_close (Some 0%Z) None) (Stream false))) = [onEnd]
   /\ calls (trace_of (emit connectionClientStream.constructor
                      (ev_close (Some 0%Z) None) (Stream false))) = [onEnd])
  /\
  (calls (trace_of (emit WebSocketServerStream.constructor
                      (ev_close (Some 1006%Z) (Some "gone"%string)) (Stream false)))
     = [onError (NewError "gone" (Some 1006%Z))]
   /\ calls (trace_of (emit connectionClientStream.constructor
                      (ev_close (Some 1006%Z) (Some "gone"%string)) (Stream false)))
     = [onError (NewError "gone" (Some 1006%Z))]).
Proof.
  split.
  - apply (proj1 (C2_close_code_decides_end_or_error (Some 0%Z) None (Stream false))).
    right. reflexivity.
  - apply (proj2 (C2_close_code_decides_end_or_error
                    (Some 1006%Z) (Some "gone"%string) (Stream false)) 1006%Z).
    + reflexivity.
    + lia.
Defined.

(** ** [write] *)

Lemma server_write_absent (s : BaseStream) :
  WebSocketServerStream.write None s = (rejected (TypeError "Data is required."), s, []).
Proof. reflexivity. Qed.

Lemma server_write_present (d : Buffer) (s : BaseStream) :
  WebSocketServerStream.write (Some d) s =
    if disposed s
    then (rejected ObjectDisposedError, s, [])
    else (resolved, s, [Entry false (websocket_send d)]).
Proof. by_cases_on_stream s; reflexivity. Qed.

Lemma client_write_disposed (data : option Buffer) (s : BaseStream) :
  disposed s = true ->
  connectionClientStream.write data s = (thrown ObjectDisposedError, s, []).
Proof. destruct s as [d]; cbn; intros ->. reflexivity. Qed.

Lemma client_write_live (data : option Buffer) (s : BaseStream) :
  disposed s = false ->
  connectionClientStream.write data s =
    match data with
    | None => (thrown (TypeError "Data is required."), s, [])
    | Some d => (resolved, s, [Entry false (websocket_send d)])
    end.
Proof. destruct s as [d]; cbn; intros ->. destruct data; reflexivity. Qed.

(** C3, as the specification words it, fails on both adapters: an empty
    buffer given to an adapter that is not disposed is sent, not refused. *)
Lemma C3_empty_buffer_is_sent :
  ~ write_as_specified WebSocketServerStream.write
  /\ ~ write_as_specified connectionClientStream.write.
Proof.
  split; intros H;
    destruct (H (Some []) (Stream false)) as (_ & Hempty & _);
    destruct (Hempty eq_refl (or_intror eq_refl)) as [msg Hmsg];
    discriminate Hmsg.
Qed.

(** C3, amended: [write] refuses absent bytes with a [TypeError] and a
    disposed adapter with [ObjectDisposedError]; when both hold the server
    adapter, which looks at the bytes first, reports the [TypeError] and the
    client adapter, which looks at [disposed] first, the
    [ObjectDisposedError].  A refused call sends nothing.  Every other call,
    one with an empty buffer included, sends the bytes as one message and
    returns a resolved promise. *)
Theorem C3_write_contract (data : option Buffer) (s : BaseStream) :
  (data = None -> disposed s = false ->
     WebSocketServerStream.write data s = (rejected (TypeError "Data is required."), s, [])
     /\ connectionClientStream.write data s = (thrown (TypeError "Data is required."), s, []))
  /\
  (forall d : Buffer, data = Some d -> disposed s = true ->
     WebSocketServerStream.write data s = (rejected ObjectDisposedError, s, [])
     /\ connectionClientStream.write data s = (thrown ObjectDisposedError, s, []))
  /\
  (data = None -> disposed s = true ->
     WebSocketServerStream.write data s = (rejected (TypeError "Data is required."), s, [])
     /\ connectionClientStream.write data s = (thrown ObjectDisposedError, s, []))
  /\
  (forall d : Buffer, data = Some d -> disposed s = false ->
     WebSocketServerStream.write data s = (resolved, s, [Entry false (websocket_send d)])
     /\ connectionClientStream.write data s = (resolved, s, [Entry false (websocket_send d)])).
Proof.
  repeat split; intros; subst data.
  - apply server_write_absent.
  - rewrite client_write_live by assumption. reflexivity.
  - rewrite server_write_present. destruct (disposed s); [reflexivity|discriminate].
  - apply client_write_disposed. assumption.
  - apply server_write_absent.
  - apply client_write_disposed. assumption.
  - rewrite server_write_present. destruct (disposed s); [discriminate|reflexivity].
  - rewrite client_write_live by assumption. reflexivity.
Qed.

Lemma C3_write_contract_witness :
  (WebSocketServerStream.write None (Stream false)
     = (rejected (TypeError "Data is required."), Stream false, [])
   /\ connectionClientStream.write None (Stream false)
     = (thrown (TypeError "Data is required."), Stream false, []))
  /\
  (WebSocketServerStream.write (Some [x41]) (Stream true)
     = (rejected ObjectDisposedError, Stream true, [])
   /\ connectionClientStream.write (Some [x41]) (Stream true)
     = (thrown ObjectDisposedError, Stream true, []))
  /\
  (WebSocketServerStream.write None (Stream true)
     = (rejected (TypeError "Data is required."), Stream true, [])
   /\ connectionClientStream.write None (Stream true)
     = (thrown ObjectDisposedError, Stream true, []))
  /\
  (WebSocketServerStream.write (Some []) (Stream false)
     = (resolved, Stream false, [Entry false (websocket_send [])])
   /\ connectionClientStream.write (Some []) (Stream false)
     = (resolved, Stream false, [Entry false (websocket_send [])])).
Proof.
  split; [|split; [|split]].
  - apply (proj1 (C3_write_contract None (Stream false))); reflexivity.
  - apply (proj1 (proj2 (C3_write_contract (Some [x41]) (Stream true))) [x41]);
      reflexivity.
  - apply (proj1 (proj2 (proj2 (C3_write_contract None (Stream true)))));
      reflexivity.
  - apply (proj2 (proj2 (proj2 (C3_write_contract (Some []) (Stream false)))) []);
      reflexivity.
Defined.

(** ** [close] *)

(** On a transport that carries the call out and returns without emitting
    anything, [close(error?)] on a disposed adapter fails with
    [ObjectDisposedError] and does nothing; on an adapter that is not
    disposed it closes the transport, sets [disposed], and then makes two
    calls that both see [disposed] set: first the "closed" notification,
    then the error sink with the given error itself or, when none was
    given, a new error "Stream closed.". *)
Lemma close_on_quiet_transport (error : option js_error) (s : BaseStream) :
  (disposed s = true ->
     WebSocketServerStream.close error s = (rejected ObjectDisposedError, s, [])
     /\ connectionClientStream.close error s = (thrown ObjectDisposedError, s, []))
  /\
  (disposed s = false ->
     (exists c : effect, closes_transport c = true /\
        WebSocketServerStream.close error s =
          (resolved, Stream true,
           [Entry false c;
            Entry true (closedEmitter_fire error);
            Entry true (onError (terminal_error error))]))
     /\
     (exists c : effect, closes_transport c = true /\
        connectionClientStream.close error s =
          (resolved, Stream true,
           [Entry false c;
            Entry true (closedEmitter_fire error);
            Entry true (onError (terminal_error error))]))).
Proof.
  destruct s as [d]; cbn [disposed]. split; intros ->.
  - split; reflexivity.
  - split; destruct error as [e|]; eexists; (split; [|reflexivity]); reflexivity.
Qed.

(** C4: [close(error?)] does not keep the order on every transport.  When
    the client's socket throws at the call (as it does for a code it cannot
    put in a close frame, [error.code] being passed on unchecked), the
    exception leaves [close]: [disposed] is not set and neither
    notification is given.  When the server's connection emits its close
    event before [drop] returns, the adapter's own close listener calls the
    error sink, with [disposed] not yet set, before the "closed"
    notification is given. *)
Theorem C4_close_when_the_transport_reacts :
  (forall (error : js_error) (x : exception),
      connectionClientStream.close_with (throwing x) (Some error) (Stream false)
      = (thrown x, Stream false,
         [Entry false (websocket_close (Some (nullish (code error) (CodeNumber 1011)))
                                       (Some (message error)))]))
  /\
  (forall (error : js_error) (dropCode : positive) (description : option string),
      WebSocketServerStream.close_with
        (emitting [ev_close (Some (Z.pos dropCode)) description])
        (Some error) (Stream false)
      = (resolved, Stream true,
         [Entry false (websocket_drop
                         (match code error with
                          | Some (CodeNumber n) => Some n
                          | _ => None
                          end)
                         (message error));
          Entry false (onError (NewError (error_message description)
                                         (Some (Z.pos dropCode))));
          Entry true (closedEmitter_fire (Some error));
          Entry true (onError (Passed error))])).
Proof.
  split.
  - intros error x. reflexivity.
  - intros error dropCode description. reflexivity.
Qed.

(** ** [dispose], and what follows disposal *)

Lemma transport_closes_app (t1 t2 : list entry) :
  transport_closes (t1 ++ t2) = transport_closes t1 + transport_closes t2.
Proof.
  unfold transport_closes, calls.
  rewrite map_app, List.filter_app, length_app. reflexivity.
Qed.

Section ClosingDiscipline.

Context {Msg : Type} `{StreamAdapter Msg}.

(** On a disposed adapter no operation closes the transport, and the
    adapter stays disposed. *)
Hypothesis disposed_is_final : forall (o : operation Msg) (s : BaseStream),
  disposed s = true ->
  disposed (fst (step o s)) = true /\ transport_closes (snd (step o s)) = 0.

(** An operation that closes the transport closes it once and leaves the
    adapter disposed. *)
Hypothesis closing_disposes : forall (o : operation Msg) (s : BaseStream),
  disposed s = false ->
  transport_closes (snd (step o s)) = 0
  \/ (transport_closes (snd (step o s)) = 1 /\ disposed (fst (step o s)) = true).

Lemma run_cons (o : operation Msg) (os : list (operation Msg)) (s : BaseStream) :
  run (o :: os) s =
    (fst (run os (fst (step o s))), snd (step o s) ++ snd (run os (fst (step o s)))).
Proof.
  cbn [run]. destruct (step o s) as [s1 t1]. cbn [fst snd].
  destruct (run os s1) as [s2 t2]. reflexivity.
Qed.

Lemma run_stays_disposed (os : list (operation Msg)) (s : BaseStream) :
  disposed s = true ->
  disposed (fst (run os s)) = true /\ transport_closes (snd (run os s)) = 0.
Proof.
  revert s. induction os as [|o os IH]; intros s Hs.
  - split; [assumption|reflexivity].
  - rewrite run_cons. cbn [fst snd].
    destruct (disposed_is_final o s Hs) as [Hd Hc].
    destruct (IH _ Hd) as [Hd' Hc'].
    split; [assumption|].
    rewrite transport_closes_app, Hc, Hc'. reflexivity.
Qed.

Lemma run_closes_at_most_once (os : list (operation Msg)) (s : BaseStream) :
  transport_closes (snd (run os s)) <= (if disposed s then 0 else 1).
Proof.
  revert s. induction os as [|o os IH]; intros s.
  - cbn. lia.
  - rewrite run_cons. cbn [snd]. rewrite transport_closes_app.
    destruct (disposed s) eqn:Hs.
    + destruct (disposed_is_final o s Hs) as [Hd Hc].
      destruct (run_stays_disposed os _ Hd) as [_ Hc']. lia.
    + destruct (closing_disposes o s Hs) as [Hc | [Hc Hd]].
      * specialize (IH (fst (step o s))).
        destruct (disposed (fst (step o s))); lia.
      * destruct (run_stays_disposed os _ Hd) as [_ Hc']. lia.
Qed.

End ClosingDiscipline.

Ltac by_cases_on_event ev :=
  let n := fresh "n" in
  let E := fresh "E" in
  destruct ev as [? | [n|] ? | ?];
  [ | destruct (n =? 0)%Z eqn:E | | ].

Lemma server_disposed_is_final (o : operation WebSocketServerStream.Message) (s : BaseStream) :
  disposed s = true ->
  disposed (fst (step o s)) = true /\ transport_closes (snd (step o s)) = 0.
Proof.
  destruct s as [d]; cbn [disposed]; intros ->.
  destruct o as [[b|] | e | | ev]; try (split; reflexivity).
  by_cases_on_event ev; cbn; run_monad;
    try match goal with m : WebSocketServerStream.Message |- _ => destruct m end;
    try rewrite E; split; reflexivity.
Qed.

Lemma server_closing_disposes (o : operation WebSocketServerStream.Message) (s : BaseStream) :
  disposed s = false ->
  transport_closes (snd (step o s)) = 0
  \/ (transport_closes (snd (step o s)) = 1 /\ disposed (fst (step o s)) = true).
Proof.
  destruct s as [d]; cbn [disposed]; intros ->.
  destruct o as [[b|] | [e|] | | ev];
    try (left; reflexivity); try (right; split; reflexivity).
  by_cases_on_event ev; cbn; run_monad;
    try match goal with m : WebSocketServerStream.Message |- _ => destruct m end;
    try rewrite E; left; reflexivity.
Qed.

Lemma client_disposed_is_final (o : operation connectionClientStream.Message) (s : BaseStream) :
  disposed s = true ->
  disposed (fst (step o s)) = true /\ transport_closes (snd (step o s)) = 0.
Proof.
  destruct s as [d]; cbn [disposed]; intros ->.
  destruct o as [[b|] | e | | ev]; try (split; reflexivity).
  by_cases_on_event ev; cbn; run_monad;
    try match goal with m : connectionClientStream.Message |- _ =>
          destruct m as [? [|]] end;
    try rewrite E; split; reflexivity.
Qed.

Lemma client_closing_disposes (o : operation connectionClientStream.Message) (s : BaseStream) :
  disposed s = false ->
  transport_closes (snd (step o s)) = 0
  \/ (transport_closes (snd (step o s)) = 1 /\ disposed (fst (step o s)) = true).
Proof.
  destruct s as [d]; cbn [disposed]; intros ->.
  destruct o as [[b|] | [e|] | | ev];
    try (left; reflexivity); try (right; split; reflexivity).
  by_cases_on_event ev; cbn; run_monad;
    try match goal with m : connectionClientStream.Message |- _ =>
          destruct m as [? [|]] end;
    try rewrite E; left; reflexivity.
Qed.

(** A state reached after [dispose], whatever happened in between. *)
Lemma server_disposed_after_dispose
    (os : list (operation WebSocketServerStream.Message)) (s : BaseStream) :
  disposed (fst (run (op_dispose :: os) s)) = true.
Proof.
  rewrite run_cons. cbn [fst].
  apply (run_stays_disposed server_disposed_is_final).
  destruct s as [[|]]; reflexivity.
Qed.

Lemma client_disposed_after_dispose
    (os : list (operation connectionClientStream.Message)) (s : BaseStream) :
  disposed (fst (run (op_dispose :: os) s)) = true.
Proof.
  rewrite run_cons. cbn [fst].
  apply (run_stays_disposed client_disposed_is_final).
  destruct s as [[|]]; reflexivity.
Qed.

(** C7, as the specification words it, fails on the server adapter: after
    disposal a [write] without bytes fails with the [TypeError] of the
    argument check, which the server adapter makes before it looks at
    [disposed]. *)
Lemma C7_server_write_without_bytes_after_dispose :
  failure (value_of (WebSocketServerStream.write None
                       (state_of (WebSocketServerStream.dispose (Stream false)))))
    = Some (TypeError "Data is required.")
  /\ failure (value_of (WebSocketServerStream.write None
                       (state_of (WebSocketServerStream.dispose (Stream false)))))
    <> Some ObjectDisposedError.
Proof. split; [reflexivity|discriminate]. Qed.

(** C7, amended: [dispose] never throws; a second [dispose] changes nothing
    and makes no call, so two calls in a row are one call; on an adapter
    that is not disposed it closes the transport, giving no code and no
    reason, and leaves the adapter disposed.  At any time after a [dispose],
    [close] fails with [ObjectDisposedError], and so does [write], except
    that the server adapter's [write] called without bytes fails with its
    [TypeError]. *)
Theorem C7_dispose_idempotent_and_final (s : BaseStream) :
  (value_of (WebSocketServerStream.dispose s) = Return tt
   /\ (WebSocketServerStream.dispose ;; WebSocketServerStream.dispose) s
      = WebSocketServerStream.dispose s
   /\ (disposed s = false ->
       WebSocketServerStream.dispose s
       = (Return tt, Stream true, [Entry false (websocket_close None None)]))
   /\ (forall (os : list (operation WebSocketServerStream.Message))
              (error : option js_error) (d : Buffer),
         failure (value_of (WebSocketServerStream.close error
                              (fst (run (op_dispose :: os) s))))
           = Some ObjectDisposedError
         /\ failure (value_of (WebSocketServerStream.write (Some d)
                              (fst (run (op_dispose :: os) s))))
           = Some ObjectDisposedError
         /\ failure (value_of (WebSocketServerStream.write None
                              (fst (run (op_dispose :: os) s))))
           = Some (TypeError "Data is required.")))
  /\
  (value_of (connectionClientStream.dispose s) = Return tt
   /\ (connectionClientStream.dispose ;; connectionClientStream.dispose) s
      = connectionClientStream.dispose s
   /\ (disposed s = false ->
       connectionClientStream.dispose s
       = (Return tt, Stream true, [Entry false (websocket_close None None)]))
   /\ (forall (os : list (operation connectionClientStream.Message))
              (error : option js_error) (data : option Buffer),
         failure (value_of (connectionClientStream.close error
                              (fst (run (op_dispose :: os) s))))
           = Some ObjectDisposedError
         /\ failure (value_of (connectionClientStream.write data
                              (fst (run (op_dispose :: os) s))))
           = Some ObjectDisposedError)).
Proof.
  split.
  - split; [by_cases_on_stream s; reflexivity|].
    split; [by_cases_on_stream s; reflexivity|].
    split; [destruct s as [d]; cbn [disposed]; intros ->; reflexivity|].
    intros os error d.
    pose proof (server_disposed_after_dispose os s) as Hd.
    destruct (fst (run (op_dispose :: os) s)) as [d']. cbn [disposed] in Hd. subst d'.
    repeat split.
  - split; [by_cases_on_stream s; reflexivity|].
    split; [by_cases_on_stream s; reflexivity|].
    split; [destruct s as [d]; cbn [disposed]; intros ->; reflexivity|].
    intros os error data.
    pose proof (client_disposed_after_dispose os s) as Hd.
    destruct (fst (run (op_dispose :: os) s)) as [d']. cbn [disposed] in Hd. subst d'.
    repeat split.
Qed.

Lemma C7_dispose_witness :
  WebSocketServerStream.dispose (Stream false)
    = (Return tt, Stream true, [Entry false (websocket_close None None)])
  /\ connectionClientStream.dispose (Stream false)
    = (Return tt, Stream true, [Entry false (websocket_close None None)]).
Proof.
  split.
  - apply (proj1 (proj2 (proj2 (proj1
             (C7_dispose_idempotent_and_final (Stream false)))))).
    reflexivity.
  - apply (proj1 (proj2 (proj2 (proj2
             (C7_dispose_idempotent_and_final (Stream false)))))).
    reflexivity.
Defined.

(** ** Transport errors *)

(** C9: the server adapter hands an error raised by the transport to its
    error sink, the very object and nothing else; the client adapter, which
    registers no listener for transport errors, hands it nothing. *)
Theorem C9_transport_error_surfaced_by_server_only (e : js_error) (s : BaseStream) :
  emit WebSocketServerStream.constructor (ev_error e) s
    = (Return tt, s, [Entry (disposed s) (onError (Passed e))])
  /\ emit connectionClientStream.constructor (ev_error e) s
    = (Return tt, s, []).
Proof. split; reflexivity. Qed.

(** ** Closing the transport once *)

(** C10: whatever is done to an adapter (calls of [write], [close] and
    [dispose], failing or not, and transport events, in any order), the
    transport's [close] or [drop] is called at most once, and never on an
    adapter that starts out disposed. *)
Theorem C10_transport_closed_at_most_once :
  (forall (os : list (operation WebSocketServerStream.Message)) (s : BaseStream),
      transport_closes (snd (run os s)) <= (if disposed s then 0 else 1))
  /\
  (forall (os : list (operation connectionClientStream.Message)) (s : BaseStream),
      transport_closes (snd (run os s)) <= (if disposed s then 0 else 1)).
Proof.
  split; intros os s.
  - apply (run_closes_at_most_once server_disposed_is_final server_closing_disposes).
  - apply (run_closes_at_most_once client_disposed_is_final client_closing_disposes).
Qed.

(** ** The session map *)

(** [testSSH] as it stands never finds a session to close: its map is new. *)
Lemma testSSH_finds_no_prior_session (session : SshClientSession) :
  testSSH session true =
    ({["ws://localhost:8080"%string := session]},
     [RegistryEntry ∅ (Map_set "ws://localhost:8080" session)]).
Proof. reflexivity. Qed.

(** ** Authorization *)

(** C6: for a port-forward request the handler authorizes exactly when the
    event carries a principal, so it refuses when there is none; it changes
    nothing else of the event, its answer does not depend on the answer the
    event held before, and running it again gives the same event. *)
Theorem C6_authorized_iff_principal {Principal : Type}
    (e : SshRequestEventArgs Principal) (host : string) (port : Z) :
  request e = PortForwardRequestMessage host port ->
  (isAuthorized (onRequest e) = true <-> exists p : Principal, principal e = Some p)
  /\ (principal e = None -> isAuthorized (onRequest e) = false)
  /\ request (onRequest e) = request e
  /\ principal (onRequest e) = principal e
  /\ (forall before : bool,
        isAuthorized (onRequest (RequestEventArgs (request e) (principal e) before))
        = isAuthorized (onRequest e))
  /\ onRequest (onRequest e) = onRequest e.
Proof.
  destruct e as [r p a]. cbn [request principal]. intros ->.
  unfold onRequest. cbn.
  split.
  - destruct p as [x|]; cbn; split.
    + intros _. exists x. reflexivity.
    + reflexivity.
    + discriminate.
    + intros [x Hx]. discriminate.
  - split; [intros ->; reflexivity|]. repeat split.
Qed.

Lemma C6_authorized_witness :
  (isAuthorized (onRequest (RequestEventArgs
       (PortForwardRequestMessage "127.0.0.1" 2223) (Some tt) false)) = true
   <-> exists p : unit, Some tt = Some p)
  /\ isAuthorized (onRequest (RequestEventArgs
       (PortForwardRequestMessage "127.0.0.1" 2223) (@None unit) true)) = false.
Proof.
  split.
  - apply (C6_authorized_iff_principal
             (RequestEventArgs (PortForwardRequestMessage "127.0.0.1" 2223)
                (Some tt) false) "127.0.0.1" 2223 eq_refl).
  - apply (proj1 (proj2 (C6_authorized_iff_principal
             (RequestEventArgs (PortForwardRequestMessage "127.0.0.1" 2223)
                (@None unit) true) "127.0.0.1" 2223 eq_refl))).
    reflexivity.
Defined.

(** ** Monitoring a spawned process *)

(** A handler that returns normally is invoked once for a Bun subprocess,
    however [exited] settles. *)
Lemma bun_returning_handler_invoked_once (f : exit_callback) (p : Bun.Subprocess) :
  (forall c g, f c g = returns) ->
  Bun.monitor (Some f) p = [ExitCall (Bun.sub_exitCode p) (Bun.sub_signalCode p)].
Proof.
  intros Hf. unfold Bun.monitor, promise_then, promise_catch, call_onExit.
  destruct (Bun.exited p); rewrite Hf; reflexivity.
Qed.

(** Under Node the handler is invoked once for each ["exit"] event and not
    at all for an ["error"] event. *)
Lemma node_handler_invoked_per_exit (f : exit_callback) (evs : list Node.child_event) :
  length (Node.monitor (Some f) evs) =
    length (List.filter (fun ev => match ev with Node.exit _ _ => true | _ => false end) evs).
Proof.
  unfold Node.monitor.
  induction evs as [|[c g|e] evs IH]; cbn; [reflexivity| |assumption].
  f_equal. assumption.
Qed.

(** A handler that throws when the fulfilled [exited] makes the [then]
    callback invoke it is invoked again by the [catch] callback. *)
Lemma bun_throwing_handler_invoked_again (f : exit_callback) (p : Bun.Subprocess) :
  Bun.exited p = fulfilled ->
  f (Bun.sub_exitCode p) (Bun.sub_signalCode p) = throws ->
  Bun.monitor (Some f) p =
    [ExitCall (Bun.sub_exitCode p) (Bun.sub_signalCode p);
     ExitCall (Bun.sub_exitCode p) (Bun.sub_signalCode p)].
Proof.
  intros Hp Hf. unfold Bun.monitor, promise_then, promise_catch, call_onExit.
  rewrite Hp, Hf. reflexivity.
Qed.

(** Under Node a process whose end is reported by an ["error"] event alone
    leaves the handler uninvoked. *)
Lemma node_error_alone_invokes_nothing (f : exit_callback) (e : js_error) :
  Node.monitor (Some f) [Node.error e] = [].
Proof. reflexivity. Qed.

Lemma node_error_events_invoke_nothing (f : exit_callback)
    (evs : list Node.child_event) :
  Forall (fun ev => is_error_event ev = true) evs ->
  Node.monitor (Some f) evs = [].
Proof.
  unfold Node.monitor.
  induction 1 as [|ev evs Hev _ IH]; [reflexivity|].
  destruct ev as [c g|e]; [discriminate Hev|]. cbn. exact IH.
Qed.

Lemma node_monitor_app (onExit : option exit_callback) (evs1 evs2 : list Node.child_event) :
  Node.monitor onExit (evs1 ++ evs2) = Node.monitor onExit evs1 ++ Node.monitor onExit evs2.
Proof. unfold Node.monitor. rewrite map_app. apply concat_app. Qed.

(** C8: a handler that returns, as the one [testSSH] gives does, is invoked
    exactly once for a process that has ended, by whichever path the end is
    reported.  Under Bun: whether [exited] was fulfilled or rejected.  Under
    Node: once for the ["exit"] event of the process, however many
    ["error"] events the child emits before and after it. *)
Theorem C8_exit_handler_fires_once (runtime : string) (f : exit_callback) :
  (forall code signal, f code signal = returns) ->
  (is_Bun runtime = true ->
     forall p : Bun.Subprocess,
       spawnProcess runtime (Some f) (bun_ended p)
       = Some [ExitCall (Bun.sub_exitCode p) (Bun.sub_signalCode p)])
  /\
  (is_Bun runtime = false ->
     forall (before after : list Node.child_event) (code : option Z)
            (signal : option string),
       Forall (fun ev => is_error_event ev = true) before ->
       Forall (fun ev => is_error_event ev = true) after ->
       spawnProcess runtime (Some f) (node_ended (before ++ Node.exit code signal :: after))
       = Some [ExitCall code signal]).
Proof.
  intros Hf. split; intros Hrt.
  - intros p. unfold spawnProcess. rewrite Hrt.
    rewrite (bun_returning_handler_invoked_once f p Hf). reflexivity.
  - intros before after code signal Hb Ha. unfold spawnProcess. rewrite Hrt.
    rewrite node_monitor_app, (node_error_events_invoke_nothing f before Hb).
    change (Node.exit code signal :: after) with ([Node.exit code signal] ++ after).
    rewrite node_monitor_app, (node_error_events_invoke_nothing f after Ha).
    reflexivity.
Qed.

Lemma C8_exit_handler_witness :
  (forall p : Bun.Subprocess,
      spawnProcess "Bun/1.2.0" (Some testSSH_exit_callback) (bun_ended p)
      = Some [ExitCall (Bun.sub_exitCode p) (Bun.sub_signalCode p)])
  /\
  spawnProcess "Node.js/22" (Some testSSH_exit_callback)
    (node_ended ([Node.error (JsError "kill EPERM" None)]
                 ++ Node.exit None (Some "SIGTERM"%string)
                 :: [Node.error (JsError "write EPIPE" None)]))
  = Some [ExitCall None (Some "SIGTERM"%string)].
Proof.
  split.
  - apply (proj1 (C8_exit_handler_fires_once "Bun/1.2.0" testSSH_exit_callback
                    (fun _ _ => eq_refl))).
    reflexivity.
  - apply (proj2 (C8_exit_handler_fires_once "Node.js/22" testSSH_exit_callback
                    (fun _ _ => eq_refl))).
    + reflexivity.
    + repeat constructor.
    + repeat constructor.
Defined.

(** ** [closeSessions] *)

Lemma filter_twice {A : Type} (p q : A -> bool) (l : list A) :
  List.filter p (List.filter q l) = List.filter (fun x => q x && p x) l.
Proof.
  induction l as [|x l IH]; [reflexivity|].
  cbn. destruct (q x); cbn; [destruct (p x)|]; rewrite IH; reflexivity.
Qed.

(** The walk over a list of entries, from any map and any calls so far. *)
Lemma closeSessions_walk (sessions : option (list string)) (entries cur : JsMap)
    (t : list registry_call) :
  fold_left (closeSessions_entry sessions) entries (cur, t) =
    (List.filter (fun kv => negb (taken sessions entries (fst kv))) cur,
     t ++ closing_calls sessions entries).
Proof.
  revert cur t. induction entries as [|kv entries IH]; intros cur t.
  - cbn. rewrite app_nil_r. f_equal.
    induction cur as [|x cur IHc]; [reflexivity|]. cbn. f_equal. exact IHc.
  - cbn [fold_left]. unfold closeSessions_entry at 2. cbn [fst snd].
    unfold closing_calls, taken. cbn [flat_map existsb].
    destruct (passed_over sessions (fst kv)) eqn:Hp; cbn [negb andb orb].
    + rewrite IH. reflexivity.
    + rewrite IH. unfold JsMap_delete. rewrite filter_twice.
      rewrite <- app_assoc. f_equal.
      apply List.filter_ext. intros kv0. unfold taken.
      destruct (String.eqb (fst kv0) (fst kv)); reflexivity.
Qed.

Lemma taken_by_own_entry (sessions : option (list string)) (entries : JsMap)
    (kv : string * SshClientSession) :
  In kv entries ->
  taken sessions entries (fst kv) = negb (passed_over sessions (fst kv)).
Proof.
  intros Hin. unfold taken.
  destruct (passed_over sessions (fst kv)) eqn:Hp; cbn [negb].
  - apply not_true_is_false. intros Hex. apply existsb_exists in Hex.
    destruct Hex as [kv' [_ H]]. apply andb_prop in H. destruct H as [H1 H2].
    apply String.eqb_eq in H2. rewrite <- H2, Hp in H1. discriminate.
  - apply existsb_exists. exists kv. split; [assumption|].
    rewrite Hp, String.eqb_refl. reflexivity.
Qed.

(** X1: [closeSessions] keeps, in their order, exactly the entries whose key
    is not in the given list (none when no list is given), and for each
    other entry, in the order of the entries, closes its session and then
    deletes its key. *)
Theorem closeSessions_keeps_the_entries_passed_over
    (sessions : option (list string)) (sessionMap : JsMap) :
  closeSessions sessions sessionMap =
    (List.filter (fun kv => passed_over sessions (fst kv)) sessionMap,
     closing_calls sessions sessionMap).
Proof.
  unfold closeSessions. rewrite closeSessions_walk. cbn [app]. f_equal.
  apply List.filter_ext_in. intros kv Hin.
  rewrite (taken_by_own_entry _ _ _ Hin). apply negb_involutive.
Qed.

(** X2: without a list [closeSessions] empties the map and closes every
    session, one close per entry, in insertion order; with an empty list it
    closes nothing and leaves the map as it is. *)
Theorem closeSessions_without_list_and_with_empty_list (sessionMap : JsMap) :
  fst (closeSessions None sessionMap) = []
  /\ omap (fun c => match c with session_close x _ => Some x | _ => None end)
          (snd (closeSessions None sessionMap))
     = map snd sessionMap
  /\ closeSessions (Some []) sessionMap = (sessionMap, []).
Proof.
  rewrite !closeSessions_keeps_the_entries_passed_over. cbn [fst snd passed_over].
  split; [|split].
  - induction sessionMap as [|kv m IH]; [reflexivity|exact IH].
  - unfold closing_calls. cbn [passed_over].
    induction sessionMap as [|kv m IH]; [reflexivity|].
    cbn. f_equal. exact IH.
  - f_equal.
    + induction sessionMap as [|kv m IH]; [reflexivity|]. cbn. f_equal. exact IH.
    + unfold closing_calls. cbn.
      induction sessionMap as [|kv m IH]; [reflexivity|exact IH].
Qed.

(** X3: a second [closeSessions] with the same list finds nothing left to
    close and changes nothing. *)
Theorem closeSessions_again_does_nothing
    (sessions : option (list string)) (sessionMap : JsMap) :
  closeSessions sessions (fst (closeSessions sessions sessionMap)) =
    (fst (closeSessions sessions sessionMap), []).
Proof.
  rewrite !closeSessions_keeps_the_entries_passed_over. cbn [fst].
  f_equal.
  - rewrite filter_twice. apply List.filter_ext. intros kv.
    apply andb_diag.
  - unfold closing_calls.
    induction sessionMap as [|kv m IH]; [reflexivity|].
    cbn [List.filter]. destruct (passed_over sessions (fst kv)) eqn:Hp; [|exact IH].
    cbn [flat_map]. rewrite Hp. exact IH.
Qed.

(** X4: the exit callback of [testSSH] undoes the registration and more:
    run on the map in which [testSSH] has set a key that was free, it gives
    that map back as it was before, closes the session first, and has
    [closeSessions] empty the module's map. *)
Theorem onExit_undoes_registration
    (sessionMap : gmap string SshClientSession) (serverURI : string)
    (session : SshClientSession) (moduleMap : JsMap) :
  sessionMap !! serverURI = None ->
  testSSH_onExit session serverURI
    (fst (testSSH_sessions sessionMap serverURI session true)) moduleMap
  = (sessionMap, [],
     session_close session byApplication :: Map_delete serverURI
       :: closing_calls None moduleMap).
Proof.
  intros Hfree. unfold testSSH_onExit, testSSH_sessions. cbn [fst].
  rewrite closeSessions_keeps_the_entries_passed_over. cbn [fst snd app].
  f_equal. f_equal.
  - rewrite delete_insert_eq. apply delete_id. assumption.
  - cbn [passed_over]. induction moduleMap as [|kv m IH]; [reflexivity|exact IH].
Qed.

Lemma onExit_undoes_registration_witness :
  testSSH_onExit 8 "ws://localhost:8080"
    (fst (testSSH_sessions ∅ "ws://localhost:8080" 8 true))
    [("ws://other:1"%string, 3)]
  = (∅, [],
     session_close 8 byApplication :: Map_delete "ws://localhost:8080"
       :: closing_calls None [("ws://other:1"%string, 3)]).
Proof.
  apply (onExit_undoes_registration ∅ "ws://localhost:8080" 8
           [("ws://other:1"%string, 3)]).
  vm_compute. reflexivity.
Defined.

(** ** [spawnProcess], continued *)

(** X5: under a runtime whose user agent starts with "Bun", a handler that
    returns normally is invoked exactly once for a subprocess that has
    ended, with the subprocess's exit code and signal, whether [exited] was
    fulfilled or rejected. *)
Theorem bun_handler_invoked_once_when_it_returns
    (runtime : string) (f : exit_callback) (p : Bun.Subprocess) :
  is_Bun runtime = true ->
  (forall c g, f c g = returns) ->
  spawnProcess runtime (Some f) (bun_ended p)
  = Some [ExitCall (Bun.sub_exitCode p) (Bun.sub_signalCode p)].
Proof.
  intros Hbun Hf. unfold spawnProcess. rewrite Hbun.
  rewrite (bun_returning_handler_invoked_once f p Hf). reflexivity.
Qed.

Lemma bun_handler_invoked_once_witness :
  spawnProcess "Bun/1.2.0" (Some (fun _ _ => returns))
    (bun_ended (Bun.Build_Subprocess rejected_promise None (Some "SIGTERM"%string)))
  = Some [ExitCall None (Some "SIGTERM"%string)].
Proof.
  apply (bun_handler_invoked_once_when_it_returns "Bun/1.2.0" (fun _ _ => returns)
           (Bun.Build_Subprocess rejected_promise None (Some "SIGTERM"%string))).
  - reflexivity.
  - intros c g. reflexivity.
Defined.

(** X6: under Node the handler is invoked for the ["exit"] events of the
    child and for nothing else, in their order and with their code and
    signal, whatever the handler does; without a handler nothing is
    invoked. *)
Theorem node_handler_sees_the_exit_events
    (onExit : option exit_callback) (evs : list Node.child_event) :
  Node.monitor onExit evs =
    match onExit with
    | Some _ =>
        omap (fun ev => match ev with
                        | Node.exit code signal => Some (ExitCall code signal)
                        | Node.error _ => None
                        end) evs
    | None => []
    end.
Proof.
  unfold Node.monitor.
  induction evs as [|[c g|e] evs IH]; cbn.
  - destruct onExit; reflexivity.
  - rewrite IH. destruct onExit; reflexivity.
  - rewrite IH. destruct onExit; reflexivity.
Qed.

(** ** Waiting for the socket to open *)

Lemma settled_stays (serverURI : string) (p : connecting) (evs : list connect_event) :
  p <> waiting -> fold_left (connecting_step serverURI) evs p = p.
Proof.
  intros Hp. induction evs as [|ev evs IH]; [reflexivity|].
  cbn [fold_left]. destruct p; [contradiction| |]; exact IH.
Qed.

Lemma waiting_through_open_timers (serverURI : string) (evs : list connect_event) :
  Forall (fun ev => finds_open ev = true) evs ->
  fold_left (connecting_step serverURI) evs waiting = waiting.
Proof.
  induction 1 as [|ev evs Hev _ IH]; [reflexivity|].
  cbn [fold_left]. destruct ev as [|msg|readyState]; try discriminate Hev.
  cbn in Hev |- *. destruct (not_open readyState); [discriminate Hev|exact IH].
Qed.

(** X7: the wait ends with a stream exactly when the socket opens before
    any error is reported and before the timer finds the socket not open;
    what comes after the opening (an error, the timer) does not matter. *)
Theorem connect_gives_stream_iff (serverURI : string) (evs : list connect_event) :
  connect serverURI evs = got_stream
  <-> exists before after : list connect_event,
        evs = before ++ socket_open :: after
        /\ Forall (fun ev => finds_open ev = true) before.
Proof.
  unfold connect. split.
  - induction evs as [|ev evs IH]; [discriminate|].
    cbn [fold_left]. destruct ev as [|msg|readyState]; cbn [connecting_step].
    + intros _. exists [], evs. split; [reflexivity|constructor].
    + rewrite settled_stays by discriminate. discriminate.
    + destruct (not_open readyState) eqn:E.
      * rewrite settled_stays by discriminate. discriminate.
      * intros H. destruct (IH H) as (before & after & -> & Hb).
        exists (timer_fired readyState :: before), after.
        split; [reflexivity|]. constructor; [|exact Hb].
        cbn. rewrite E. reflexivity.
  - intros (before & after & -> & Hb).
    rewrite fold_left_app, (waiting_through_open_timers _ _ Hb).
    cbn [fold_left connecting_step]. apply settled_stays. discriminate.
Qed.

Lemma errorMessage_not_empty (msg : option string) : errorMessage msg <> ""%string.
Proof.
  unfold errorMessage. destruct msg as [m|]; [|discriminate].
  destruct (String.eqb m "") eqn:E; [discriminate|].
  apply String.eqb_neq. exact E.
Qed.

Lemma connecting_step_reports (serverURI : string) (p : connecting) (ev : connect_event) :
  (forall m, p = failed m -> reported_failure serverURI m) ->
  forall m, connecting_step serverURI p ev = failed m -> reported_failure serverURI m.
Proof.
  intros Hp m. destruct p as [| |m0]; cbn.
  - destruct ev as [|cause|readyState].
    + discriminate.
    + intros H. injection H as <-. right. exists (errorMessage cause).
      split; [apply errorMessage_not_empty|reflexivity].
    + destruct (not_open readyState); [|discriminate].
      intros H. injection H as <-. left. reflexivity.
  - discriminate.
  - intros H. apply Hp. exact H.
Qed.

Lemma connecting_run_reports (serverURI : string) (evs : list connect_event)
    (p : connecting) :
  (forall m, p = failed m -> reported_failure serverURI m) ->
  forall m, fold_left (connecting_step serverURI) evs p = failed m ->
            reported_failure serverURI m.
Proof.
  revert p. induction evs as [|ev evs IH]; intros p Hp m.
  - cbn. apply Hp.
  - cbn [fold_left]. apply IH. apply connecting_step_reports. exact Hp.
Qed.

(** X8: the wait fails only with one of the two messages of [testSSH], each
    naming the server, and a failure reported for a socket error never has
    an empty cause: an event without a message, or with an empty one, is
    reported as "Unknown error". *)
Theorem connect_failure_messages (serverURI : string) (evs : list connect_event)
    (msg : string) :
  connect serverURI evs = failed msg -> reported_failure serverURI msg.
Proof.
  unfold connect. apply connecting_run_reports. intros m H. discriminate H.
Qed.

Lemma connect_failure_messages_witness :
  reported_failure "ws://localhost:8080"
    "Failed to connect to server at ws://localhost:8080: Unknown error".
Proof.
  apply (connect_failure_messages "ws://localhost:8080"
           [timer_fired 1; socket_error (Some ""%string); socket_open]).
  vm_compute. reflexivity.
Defined.

(** ** The session configurations *)

Lemma in_push {A : Type} (x y : A) (a : list A) : In x (push y a) <-> x = y \/ In x a.
Proof.
  unfold push. rewrite in_app_iff. cbn. intuition congruence.
Qed.

Lemma splice_all {A : Type} (a : list A) : splice 0 (length a) [] a = [].
Proof. unfold splice. cbn. apply skipn_all. Qed.

(** X9: whatever lists the library's default configuration holds, on either
    side, the client offers exactly two key-exchange and two public-key
    algorithms, and the two configurations can agree: the server lists the
    client's second key-exchange algorithm and each of its public-key
    algorithms, both list [aes256Gcm] (the server first of all), and both
    list the two protocol extensions. *)
Theorem configurations_can_agree (client_defaults server_defaults : SshSessionConfiguration) :
  keyExchangeAlgorithms (client_configuration client_defaults)
    = [ecdhNistp256Sha256; ecdhNistp521Sha512]
  /\ publicKeyAlgorithms (client_configuration client_defaults)
    = [ecdsaSha2Nistp521; rsa2048]
  /\ In ecdhNistp521Sha512 (keyExchangeAlgorithms (server_configuration server_defaults))
  /\ (forall a, In a (publicKeyAlgorithms (client_configuration client_defaults)) ->
                In a (publicKeyAlgorithms (server_configuration server_defaults)))
  /\ In aes256Gcm (encryptionAlgorithms (client_configuration client_defaults))
  /\ head (encryptionAlgorithms (server_configuration server_defaults)) = Some aes256Gcm
  /\ (forall a, a = sessionReconnect \/ a = sessionLatency ->
                In a (protocolExtensions (client_configuration client_defaults))
                /\ In a (protocolExtensions (server_configuration server_defaults))).
Proof.
  assert (Hkex : keyExchangeAlgorithms (client_configuration client_defaults)
                 = [ecdhNistp256Sha256; ecdhNistp521Sha512]).
  { cbn. rewrite splice_all. reflexivity. }
  assert (Hpk : publicKeyAlgorithms (client_configuration client_defaults)
                = [ecdsaSha2Nistp521; rsa2048]).
  { cbn. rewrite splice_all. reflexivity. }
  split; [exact Hkex|]. split; [exact Hpk|].
  split; [cbn; apply in_push; left; reflexivity|].
  split.
  { intros a Ha. rewrite Hpk in Ha. cbn [server_configuration publicKeyAlgorithms].
    rewrite !in_push. cbn in Ha. intuition congruence. }
  split; [cbn; apply in_push; left; reflexivity|].
  split; [reflexivity|].
  intros a Ha. cbn [client_configuration server_configuration protocolExtensions].
  rewrite !in_push. intuition.
Qed.

Lemma configurations_can_agree_witness :
  In rsa2048 (publicKeyAlgorithms (server_configuration
                (Configuration [library_default "dh-group14"] [] [] [])))
  /\ In sessionLatency (protocolExtensions (client_configuration
                (Configuration [library_default "dh-group14"] [rsa2048] [] [])))
  /\ In sessionLatency (protocolExtensions (server_configuration
                (Configuration [library_default "dh-group14"] [] [] []))).
Proof.
  pose proof (configurations_can_agree
                (Configuration [library_default "dh-group14"] [rsa2048] [] [])
                (Configuration [library_default "dh-group14"] [] [] [])) as H.
  destruct H as (_ & _ & _ & Hpk & _ & _ & Hext).
  split.
  - apply Hpk. vm_compute. right. left. reflexivity.
  - apply Hext. right. reflexivity.
Defined.

(** ** Whole runs of an adapter *)

Lemma sent_app (t1 t2 : list entry) : sent (t1 ++ t2) = sent t1 ++ sent t2.
Proof. unfold sent, calls. rewrite map_app. apply omap_app. Qed.

Lemma received_app (t1 t2 : list entry) :
  received (t1 ++ t2) = received t1 ++ received t2.
Proof. unfold received, calls. rewrite map_app. apply omap_app. Qed.

Lemma closed_notifications_app (t1 t2 : list entry) :
  closed_notifications (t1 ++ t2) = closed_notifications t1 + closed_notifications t2.
Proof.
  unfold closed_notifications, calls.
  rewrite map_app, List.filter_app, length_app. reflexivity.
Qed.

Lemma writes_while_live_cons {Msg : Type} (live : bool) (o : operation Msg)
    (os : list (operation Msg)) :
  writes_while_live live (o :: os) =
    writes_while_live live [o] ++ writes_while_live (live && negb (ends_stream o)) os.
Proof.
  destruct o as [[d|] | e | | ev]; destruct live; reflexivity.
Qed.

Section RunSummaries.

Context {Msg : Type} `{StreamAdapter Msg}.
Variable payload : Msg -> option Buffer.

(** What one operation does, seen from outside. *)
Hypothesis step_summary : forall (o : operation Msg) (s : BaseStream),
  disposed (fst (step o s)) = disposed s || ends_stream o
  /\ sent (snd (step o s)) = writes_while_live (negb (disposed s)) [o]
  /\ received (snd (step o s)) = messages_of payload [o]
  /\ closed_notifications (snd (step o s)) <= transport_closes (snd (step o s)).

Lemma run_received (os : list (operation Msg)) (s : BaseStream) :
  received (snd (run os s)) = messages_of payload os.
Proof.
  revert s. induction os as [|o os IH]; intros s; [reflexivity|].
  rewrite run_cons. cbn [snd]. rewrite received_app, IH.
  destruct (step_summary o s) as (_ & _ & -> & _).
  unfold messages_of. symmetry. apply omap_cons_singleton.
Qed.

Lemma run_closed_notifications (os : list (operation Msg)) (s : BaseStream) :
  closed_notifications (snd (run os s)) <= transport_closes (snd (run os s)).
Proof.
  revert s. induction os as [|o os IH]; intros s; [reflexivity|].
  rewrite run_cons. cbn [snd].
  rewrite closed_notifications_app, transport_closes_app.
  destruct (step_summary o s) as (_ & _ & _ & Hle).
  specialize (IH (fst (step o s))). lia.
Qed.

End RunSummaries.

Ltac summary_by_evaluation :=
  repeat split; try reflexivity; vm_compute; lia.

Lemma server_step_summary (o : operation WebSocketServerStream.Message) (s : BaseStream) :
  disposed (fst (step o s)) = disposed s || ends_stream o
  /\ sent (snd (step o s)) = writes_while_live (negb (disposed s)) [o]
  /\ received (snd (step o s)) = messages_of server_payload [o]
  /\ closed_notifications (snd (step o s)) <= transport_closes (snd (step o s)).
Proof.
  destruct s as [[|]];
    (destruct o as [[b|] | [e|] | | ev]; [summary_by_evaluation .. | ]);
    (by_cases_on_event ev; cbn; run_monad;
     try match goal with m : WebSocketServerStream.Message |- _ => destruct m end;
     try rewrite E; summary_by_evaluation).
Qed.

Lemma client_step_summary (o : operation connectionClientStream.Message) (s : BaseStream) :
  disposed (fst (step o s)) = disposed s || ends_stream o
  /\ sent (snd (step o s)) = writes_while_live (negb (disposed s)) [o]
  /\ received (snd (step o s)) = messages_of client_payload [o]
  /\ closed_notifications (snd (step o s)) <= transport_closes (snd (step o s)).
Proof.
  destruct s as [[|]];
    (destruct o as [[b|] | [e|] | | ev]; [summary_by_evaluation .. | ]);
    (by_cases_on_event ev; cbn; run_monad;
     try match goal with m : connectionClientStream.Message |- _ =>
           destruct m as [[?|?] [|]] end;
     try rewrite E; summary_by_evaluation).
Qed.

(** X11: in any run the data sink is given, in the order they arrived,
    exactly the binary messages of the transport, whatever calls of [write],
    [close] and [dispose] come in between: a message that arrives after the
    adapter is disposed is handed on all the same. *)
Theorem messages_reach_sink_whatever_the_calls :
  (forall (os : list (operation WebSocketServerStream.Message)) (s : BaseStream),
      received (snd (run os s)) = messages_of server_payload os)
  /\
  (forall (os : list (operation connectionClientStream.Message)) (s : BaseStream),
      received (snd (run os s)) = messages_of client_payload os).
Proof.
  split; intros os s.
  - apply (run_received server_payload server_step_summary).
  - apply (run_received client_payload client_step_summary).
Qed.

(** X13: in any run the "closed" notification is given at most once, and
    never by an adapter that starts out disposed. *)
Theorem closed_notified_at_most_once :
  (forall (os : list (operation WebSocketServerStream.Message)) (s : BaseStream),
      closed_notifications (snd (run os s)) <= (if disposed s then 0 else 1))
  /\
  (forall (os : list (operation connectionClientStream.Message)) (s : BaseStream),
      closed_notifications (snd (run os s)) <= (if disposed s then 0 else 1)).
Proof.
  split; intros os s.
  - pose proof (run_closed_notifications server_payload server_step_summary os s).
    pose proof (run_closes_at_most_once
                  server_disposed_is_final server_closing_disposes os s).
    lia.
  - pose proof (run_closed_notifications client_payload client_step_summary os s).
    pose proof (run_closes_at_most_once
                  client_disposed_is_final client_closing_disposes os s).
    lia.
Qed.

(** X14: the two adapters treat a close of the transport alike: for every
    code and reason the server's listener and the client's make the same
    calls and leave the same state. *)
Theorem close_listeners_agree (code : option Z) (reason : option string) (s : BaseStream) :
  emit WebSocketServerStream.constructor (ev_close code reason) s
  = emit connectionClientStream.constructor (ev_close code reason) s.
Proof.
  cbn. unfold WebSocketServerStream.on_close, connectionClientStream.on_close.
  destruct code as [n|]; cbn; [|reflexivity].
  destruct (n =? 0)%Z; reflexivity.
Qed.

Lemma server_event_inert (ev : ws_event WebSocketServerStream.Message) (s : BaseStream) :
  exists t, emit WebSocketServerStream.constructor ev s = (Return tt, s, t)
            /\ Forall (fun e => on_transport (call e) = false) t.
Proof.
  by_cases_on_event ev; cbn; run_monad;
    try match goal with m : WebSocketServerStream.Message |- _ => destruct m end;
    try (unfold WebSocketServerStream.on_close; cbn; rewrite E);
    eexists; (split; [reflexivity|]); repeat constructor.
Qed.

Lemma client_event_inert (ev : ws_event connectionClientStream.Message) (s : BaseStream) :
  exists t, emit connectionClientStream.constructor ev s = (Return tt, s, t)
            /\ Forall (fun e => on_transport (call e) = false) t.
Proof.
  by_cases_on_event ev; cbn; run_monad;
    try match goal with m : connectionClientStream.Message |- _ =>
          destruct m as [[?|?] [|]] end;
    try (unfold connectionClientStream.on_close; cbn; rewrite E);
    eexists; (split; [reflexivity|]); repeat constructor.
Qed.

Lemma events_inert {Msg : Type} (ls : listeners Msg) :
  (forall ev s, exists t, emit ls ev s = (Return tt, s, t)
                          /\ Forall (fun e => on_transport (call e) = false) t) ->
  forall evs s,
    value_of (emit_all ls evs s) = Return tt
    /\ state_of (emit_all ls evs s) = s
    /\ Forall (fun e => on_transport (call e) = false) (trace_of (emit_all ls evs s)).
Proof.
  intros Hev. induction evs as [|ev evs IH]; intros s.
  - repeat split. constructor.
  - destruct (Hev ev s) as (t & Hemit & Ht).
    rewrite (emit_all_cons _ _ _ _ _ _ Hemit).
    destruct (IH s) as (Hv & Hs & Hf).
    unfold value_of, state_of, trace_of in *. cbn [fst snd].
    repeat split; [assumption..|].
    apply Forall_app. split; assumption.
Qed.

(** X15: the listeners only hand on: whatever the transport reports
    (messages, closes, errors, in any number and order), they never throw,
    never change the adapter's state, and never call [send], [close] or
    [drop] on the transport. *)
Theorem transport_events_only_hand_on :
  (forall (evs : list (ws_event WebSocketServerStream.Message)) (s : BaseStream),
      value_of (emit_all WebSocketServerStream.constructor evs s) = Return tt
      /\ state_of (emit_all WebSocketServerStream.constructor evs s) = s
      /\ Forall (fun e => on_transport (call e) = false)
                (trace_of (emit_all WebSocketServerStream.constructor evs s)))
  /\
  (forall (evs : list (ws_event connectionClientStream.Message)) (s : BaseStream),
      value_of (emit_all connectionClientStream.constructor evs s) = Return tt
      /\ state_of (emit_all connectionClientStream.constructor evs s) = s
      /\ Forall (fun e => on_transport (call e) = false)
                (trace_of (emit_all connectionClientStream.constructor evs s))).
Proof.
  split.
  - apply events_inert. apply server_event_inert.
  - apply events_inert. apply client_event_inert.
Qed.

(** ** Runs on a transport that reacts *)

Lemma run_on_cons {Msg : Type} `{StreamAdapter Msg} (o : reacting_operation Msg)
    (os : list (reacting_operation Msg)) (s : BaseStream) :
  run_on (o :: os) s =
    (fst (run_on os (fst (step_on o s))),
     snd (step_on o s) ++ snd (run_on os (fst (step_on o s)))).
Proof.
  cbn [run_on]. destruct (step_on o s) as [s1 t1]. cbn [fst snd].
  destruct (run_on os s1) as [s2 t2]. reflexivity.
Qed.

Lemma nothing_sent_off_transport (t : list entry) :
  Forall (fun e => on_transport (call e) = false) t -> sent t = [].
Proof.
  induction 1 as [|e t He _ IH]; [reflexivity|].
  unfold sent, calls in *. cbn [map omap].
  destruct (call e); try discriminate He; exact IH.
Qed.

Lemma writes_before_end_cons {Msg : Type} (live : bool) (o : reacting_operation Msg)
    (os : list (reacting_operation Msg)) :
  writes_before_end live (o :: os) =
    writes_before_end live [o]
    ++ writes_before_end (live && negb (accepted_close o || is_dispose o)) os.
Proof.
  destruct o as [[d|] | r e | | ev]; destruct live; cbn;
    try reflexivity; destruct r; reflexivity.
Qed.

Section ReactingRuns.

Context {Msg : Type} `{StreamAdapter Msg}.

(** What one operation does to [disposed] and to the transport's [send]. *)
Hypothesis step_on_summary : forall (o : reacting_operation Msg) (s : BaseStream),
  disposed (fst (step_on o s)) = disposed s || (accepted_close o || is_dispose o)
  /\ sent (snd (step_on o s)) = writes_before_end (negb (disposed s)) [o].

Lemma run_on_disposed (os : list (reacting_operation Msg)) (s : BaseStream) :
  disposed (fst (run_on os s))
  = disposed s || existsb (fun o => accepted_close o || is_dispose o) os.
Proof.
  revert s. induction os as [|o os IH]; intros s.
  - cbn. rewrite orb_false_r. reflexivity.
  - rewrite run_on_cons. cbn [fst existsb]. rewrite IH.
    destruct (step_on_summary o s) as (-> & _). symmetry. apply orb_assoc.
Qed.

Lemma run_on_sent (os : list (reacting_operation Msg)) (s : BaseStream) :
  sent (snd (run_on os s)) = writes_before_end (negb (disposed s)) os.
Proof.
  revert s. induction os as [|o os IH]; intros s; [reflexivity|].
  rewrite run_on_cons. cbn [snd]. rewrite sent_app, IH, writes_before_end_cons.
  destruct (step_on_summary o s) as (-> & ->).
  rewrite negb_orb. reflexivity.
Qed.

End ReactingRuns.

Lemma transport_call_emitting {Msg : Type} (ls : listeners Msg)
    (evs : list (ws_event Msg)) (c : effect) (s : BaseStream) :
  (forall ev s, exists t, emit ls ev s = (Return tt, s, t)
                          /\ Forall (fun e => on_transport (call e) = false) t) ->
  transport_call ls (emitting evs) c s
  = (Return tt, s, Entry (disposed s) c :: trace_of (emit_all ls evs s)).
Proof.
  intros Hev. destruct (events_inert ls Hev evs s) as (Hv & Hs & _).
  unfold transport_call, mbind, M_bind, perform.
  destruct (emit_all ls evs s) as [[v s'] t].
  unfold value_of, state_of, trace_of in *. cbn [fst snd] in *. subst. reflexivity.
Qed.

Lemma server_close_answered_by_events (evs : list (ws_event WebSocketServerStream.Message))
    (error : option js_error) :
  exists c : effect,
    on_transport c = true /\ sent [Entry false c] = []
    /\ WebSocketServerStream.close_with (emitting evs) error (Stream false)
       = (resolved, Stream true,
          Entry false c
            :: trace_of (emit_all WebSocketServerStream.constructor evs (Stream false))
            ++ [Entry true (closedEmitter_fire error);
                Entry true (onError (terminal_error error))]).
Proof.
  unfold WebSocketServerStream.close_with, async, WebSocketServerStream.close_body_with.
  cbv [mbind M_bind get_disposed disposed].
  destruct error as [e|]; eexists; (split; [|split]);
    try (rewrite (transport_call_emitting _ _ _ _ server_event_inert); reflexivity);
    reflexivity.
Qed.

Lemma client_close_answered_by_events (evs : list (ws_event connectionClientStream.Message))
    (error : option js_error) :
  exists c : effect,
    on_transport c = true /\ sent [Entry false c] = []
    /\ connectionClientStream.close_with (emitting evs) error (Stream false)
       = (resolved, Stream true,
          Entry false c
            :: trace_of (emit_all connectionClientStream.constructor evs (Stream false))
            ++ [Entry true (closedEmitter_fire error);
                Entry true (onError (terminal_error error))]).
Proof.
  unfold connectionClientStream.close_with, returning_promise,
    connectionClientStream.close_body_with.
  cbv [mbind M_bind get_disposed disposed].
  destruct error as [e|]; eexists; (split; [|split]);
    try (rewrite (transport_call_emitting _ _ _ _ client_event_inert); reflexivity);
    reflexivity.
Qed.

Lemma sent_of_answered_close (c : effect) (t rest : list entry) :
  sent [Entry false c] = [] ->
  Forall (fun e => on_transport (call e) = false) t ->
  Forall (fun e => on_transport (call e) = false) rest ->
  sent (Entry false c :: t ++ rest) = [].
Proof.
  intros Hc Ht Hrest.
  change (Entry false c :: t ++ rest) with ([Entry false c] ++ t ++ rest).
  rewrite !sent_app, Hc, (nothing_sent_off_transport _ Ht),
    (nothing_sent_off_transport _ Hrest). reflexivity.
Qed.

Lemma server_step_on_summary (o : reacting_operation WebSocketServerStream.Message)
    (s : BaseStream) :
  disposed (fst (step_on o s)) = disposed s || (accepted_close o || is_dispose o)
  /\ sent (snd (step_on o s)) = writes_before_end (negb (disposed s)) [o].
Proof.
  destruct o as [[b|] | r e | | ev].
  - destruct s as [[|]]; split; reflexivity.
  - destruct s as [[|]]; split; reflexivity.
  - destruct s as [[|]].
    + destruct r, e; split; reflexivity.
    + destruct r as [|x|evs].
      * destruct e; split; reflexivity.
      * destruct e; split; reflexivity.
      * destruct (server_close_answered_by_events evs e) as (c & _ & Hc & Heq).
        cbn [step_on adapter_close_with server_adapter]. rewrite Heq.
        unfold state_of, trace_of. cbn [fst snd]. split; [reflexivity|].
        destruct (events_inert _ server_event_inert evs (Stream false)) as (_ & _ & Hf).
        apply sent_of_answered_close; [exact Hc|exact Hf|repeat constructor].
  - destruct s as [[|]]; split; reflexivity.
  - destruct (server_event_inert ev s) as (t & Heq & Ht).
    cbn [step_on adapter_listeners server_adapter]. rewrite Heq.
    unfold state_of, trace_of. cbn [fst snd accepted_close is_dispose orb].
    rewrite orb_false_r. split; [reflexivity|].
    rewrite (nothing_sent_off_transport _ Ht). reflexivity.
Qed.

Lemma client_step_on_summary (o : reacting_operation connectionClientStream.Message)
    (s : BaseStream) :
  disposed (fst (step_on o s)) = disposed s || (accepted_close o || is_dispose o)
  /\ sent (snd (step_on o s)) = writes_before_end (negb (disposed s)) [o].
Proof.
  destruct o as [[b|] | r e | | ev].
  - destruct s as [[|]]; split; reflexivity.
  - destruct s as [[|]]; split; reflexivity.
  - destruct s as [[|]].
    + destruct r, e; split; reflexivity.
    + destruct r as [|x|evs].
      * destruct e; split; reflexivity.
      * destruct e; split; reflexivity.
      * destruct (client_close_answered_by_events evs e) as (c & _ & Hc & Heq).
        cbn [step_on adapter_close_with client_adapter]. rewrite Heq.
        unfold state_of, trace_of. cbn [fst snd]. split; [reflexivity|].
        destruct (events_inert _ client_event_inert evs (Stream false)) as (_ & _ & Hf).
        apply sent_of_answered_close; [exact Hc|exact Hf|repeat constructor].
  - destruct s as [[|]]; split; reflexivity.
  - destruct (client_event_inert ev s) as (t & Heq & Ht).
    cbn [step_on adapter_listeners client_adapter]. rewrite Heq.
    unfold state_of, trace_of. cbn [fst snd accepted_close is_dispose orb].
    rewrite orb_false_r. split; [reflexivity|].
    rewrite (nothing_sent_off_transport _ Ht). reflexivity.
Qed.

(** X10: in any run, whatever the transport does when [close] calls it
    (return, throw, emit events first), the transport's [send] is given, in
    the order they were written, exactly the buffers of the writes that come
    before the first [dispose] or the first [close] the transport does not
    refuse; a [close] at which the transport throws leaves the adapter
    writing.  Of an adapter that starts out disposed it is given none. *)
Theorem writes_reach_transport_until_the_stream_ends :
  (forall (os : list (reacting_operation WebSocketServerStream.Message)) (s : BaseStream),
      sent (snd (run_on os s)) = writes_before_end (negb (disposed s)) os)
  /\
  (forall (os : list (reacting_operation connectionClientStream.Message)) (s : BaseStream),
      sent (snd (run_on os s)) = writes_before_end (negb (disposed s)) os).
Proof.
  split; intros os s.
  - apply (run_on_sent server_step_on_summary).
  - apply (run_on_sent client_step_on_summary).
Qed.

(** X12: in a run without [dispose], whatever the transport does when
    [close] calls it, the adapter is disposed at the end exactly when it was
    at the start or the run has a [close] in it that the transport did not
    refuse: [disposed] never goes back, writes and transport events never
    set it, and a [close] at which the transport throws does not set it. *)
Theorem disposed_exactly_by_an_accepted_close :
  (forall (os : list (reacting_operation WebSocketServerStream.Message)) (s : BaseStream),
      existsb is_dispose os = false ->
      disposed (fst (run_on os s)) = disposed s || existsb accepted_close os)
  /\
  (forall (os : list (reacting_operation connectionClientStream.Message)) (s : BaseStream),
      existsb is_dispose os = false ->
      disposed (fst (run_on os s)) = disposed s || existsb accepted_close os).
Proof.
  assert (Hno : forall Msg (os : list (reacting_operation Msg)),
             existsb is_dispose os = false ->
             existsb (fun o => accepted_close o || is_dispose o) os
             = existsb accepted_close os).
  { intros Msg os. induction os as [|o os IH]; [reflexivity|].
    cbn [existsb]. intros Hd. apply orb_false_elim in Hd. destruct Hd as [Ho Hos].
    rewrite Ho, orb_false_r, (IH Hos). reflexivity. }
  split; intros os s Hd.
  - rewrite (run_on_disposed server_step_on_summary), (Hno _ _ Hd). reflexivity.
  - rewrite (run_on_disposed client_step_on_summary), (Hno _ _ Hd). reflexivity.
Qed.

Lemma disposed_exactly_by_an_accepted_close_witness :
  disposed (fst (run_on (Msg := connectionClientStream.Message)
                   [do_close (throwing (TypeError "First argument must be a valid error code number"))
                             (Some (JsError "reset" (Some (CodeOther "ECONNRESET"))));
                    do_write (Some [x41])]
                   (Stream false)))
  = disposed (Stream false)
    || existsb accepted_close
         [do_close (Msg := connectionClientStream.Message)
                   (throwing (TypeError "First argument must be a valid error code number"))
                   (Some (JsError "reset" (Some (CodeOther "ECONNRESET"))));
          do_write (Some [x41])].
Proof.
  apply (proj2 disposed_exactly_by_an_accepted_close
           [do_close (throwing (TypeError "First argument must be a valid error code number"))
                     (Some (JsError "reset" (Some (CodeOther "ECONNRESET"))));
            do_write (Some [x41])]
           (Stream false)).
  reflexivity.
Defined.

(** X16: when the transport carries the call out and returns without
    emitting anything, [close(error?)] of the client adapter, and
    [close()] without an error of the server adapter, on an adapter that is
    not disposed, call the transport once, set [disposed], and then give the
    "closed" notification and after it the error, both seeing [disposed]
    set. *)
Theorem close_in_order_when_the_transport_returns (s : BaseStream) :
  disposed s = false ->
  (forall error : option js_error,
      exists c : effect, closes_transport c = true /\
        connectionClientStream.close_with quiet error s =
          (resolved, Stream true,
           [Entry false c;
            Entry true (closedEmitter_fire error);
            Entry true (onError (terminal_error error))]))
  /\
  WebSocketServerStream.close_with quiet None s =
    (resolved, Stream true,
     [Entry false (websocket_close None None);
      Entry true (closedEmitter_fire None);
      Entry true (onError (NewError "Stream closed." None))]).
Proof.
  destruct s as [d]; cbn [disposed]; intros ->. split.
  - intros error. destruct error as [e|]; eexists; (split; [|reflexivity]); reflexivity.
  - reflexivity.
Qed.

Lemma close_in_order_witness :
  (forall error : option js_error,
      exists c : effect, closes_transport c = true /\
        connectionClientStream.close_with quiet error (Stream false) =
          (resolved, Stream true,
           [Entry false c;
            Entry true (closedEmitter_fire error);
            Entry true (onError (terminal_error error))]))
  /\
  WebSocketServerStream.close_with quiet None (Stream false) =
    (resolved, Stream true,
     [Entry false (websocket_close None None);
      Entry true (closedEmitter_fire None);
      Entry true (onError (NewError "Stream closed." None))]).
Proof.
  apply (close_in_order_when_the_transport_returns (Stream false)). reflexivity.
Defined.
